(** * Points ledger and ranking engine of the leaderboard backend

    A shallow embedding of the Mongoose models [User] and [Claim]
    (backend/models), of the claim routes (backend/routes/claimRoutes.js)
    and of the leaderboard routes (backend/routes/leaderboardRoutes.js).

    The two MongoDB collections are lists of documents, in insertion order.
    JavaScript numbers that hold integers (points, counters) are [Z];
    a [Date] is its time value, the milliseconds since the epoch, in [Z].
    What a route reads from its environment (the clock, [Math.random], whether
    a store write is rejected) is an explicit argument of the route. *)

From Stdlib Require Import String.
From Stdlib Require Import ZArith List Bool Lia Sorted Permutation Finite.
Import ListNotations.
Local Open Scope Z_scope.

(** ** Documents *)

Definition ObjectId := nat.
Bind Scope nat_scope with ObjectId.
Definition Date := Z.

(** [enum: ['random', 'bonus', 'manual']] *)
Inductive ClaimType := random | bonus | manual.

(** [userSchema], with [timestamps: true] giving [createdAt]. *)
Record User := mkUser {
  u_id : ObjectId;
  name : string;
  totalPoints : Z;
  claimsCount : Z;
  isActive : bool;
  lastActivity : Date;
  u_createdAt : Date
}.

(** [claimSchema], with [timestamps: true] giving [createdAt]. *)
Record Claim := mkClaim {
  c_id : ObjectId;
  userId : ObjectId;
  points : Z;
  claimType : ClaimType;
  isValid : bool;
  c_createdAt : Date
}.

Record Db := mkDb {
  users : list User;
  claims : list Claim
}.

(** ** Collection primitives *)

Section Collection.
Context {T : Type}.
Variable key : T -> ObjectId.

(** [Model.findById(id)]: the document with that [_id], or [null]. *)
Fixpoint findById (l : list T) (id : ObjectId) : option T :=
  match l with
  | [] => None
  | d :: l' => if (key d =? id)%nat then Some d else findById l' id
  end.

(** [Model.findByIdAndUpdate(id, update)]: the update applied to the
    document with that [_id]; nothing happens when there is none. *)
Fixpoint findByIdAndUpdate (l : list T) (id : ObjectId) (f : T -> T) : list T :=
  match l with
  | [] => []
  | d :: l' =>
      if (key d =? id)%nat then f d :: l'
      else d :: findByIdAndUpdate l' id f
  end.

(** [Model.countDocuments(filter)] *)
Definition countDocuments (p : T -> bool) (l : list T) : Z :=
  Z.of_nat (length (filter p l)).
End Collection.

(** A new document receives an [_id] that no stored document has. *)
Definition newObjectId (l : list Claim) : ObjectId :=
  S (fold_right Nat.max 0%nat (map c_id l)).

(** ** Replies of the routes *)

Record Reply (A : Type) := mkReply {
  status : nat;
  payload : option A;
  logged : list string
}.
Arguments mkReply {A} _ _ _.
Arguments status {A} _.
Arguments payload {A} _.
Arguments logged {A} _.

(** ** Updates of a user document *)

(** [$inc: { totalPoints: dp, claimsCount: dc }] *)
Definition incUser (dp dc : Z) (u : User) : User :=
  mkUser (u_id u) (name u) (totalPoints u + dp) (claimsCount u + dc)
         (isActive u) (lastActivity u) (u_createdAt u).

(** [$set: { lastActivity: t }] *)
Definition setLastActivity (t : Date) (u : User) : User :=
  mkUser (u_id u) (name u) (totalPoints u) (claimsCount u)
         (isActive u) t (u_createdAt u).

(** [{ isValid: false }] *)
Definition setInvalid (c : Claim) : Claim :=
  mkClaim (c_id c) (userId c) (points c) (claimType c) false (c_createdAt c).

(** ** POST /api/claims *)

(** The request body: [points] and [claimType] are optional. *)
Record ClaimBody := mkBody {
  b_userId : ObjectId;
  b_points : option Z;
  b_claimType : option ClaimType
}.

(** What the handler reads from outside the request:
    [randomDraw] is [Math.floor(Math.random() * 10)],
    [savedAt] the clock when the claim is saved ([createdAt]),
    [hookAt] the [new Date()] of the post-save hook, and
    [userUpdateOk] is false when the hook's [User.findByIdAndUpdate] rejects. *)
Record SaveEnv := mkSaveEnv {
  randomDraw : Z;
  savedAt : Date;
  hookAt : Date;
  userUpdateOk : bool
}.

(** [validateClaim]: [body('points').optional().isInt({ min: 1, max: 10 })];
    the rules on [userId] and [claimType] hold by typing. *)
Definition validateClaim (b : ClaimBody) : bool :=
  match b_points b with
  | None => true
  | Some p => (1 <=? p) && (p <=? 10)
  end.

(** JavaScript's [!points] on an optional integer. *)
Definition notPoints (p : option Z) : bool :=
  match p with
  | None => true
  | Some n => n =? 0
  end.

(** [claimType === 'random' && !points ? Math.floor(Math.random() * 10) + 1 : points] *)
Definition claimPoints (ty : ClaimType) (p : option Z) (env : SaveEnv) : option Z :=
  match ty with
  | random => if notPoints p then Some (randomDraw env + 1) else p
  | _ => p
  end.

(** The schema validators of [points] ([required], [min], [max]) and
    [claimSchema.pre('save')]: the points the save accepts. *)
Definition preSave (p : option Z) : option Z :=
  match p with
  | None => None
  | Some n => if (n <? 1) || (10 <? n) then None else Some n
  end.

(** [claimSchema.post('save')]: the aggregate update, whose failure is
    caught and logged. *)
Definition postSave (db : Db) (doc : Claim) (env : SaveEnv) : Db * list string :=
  if isValid doc then
    if userUpdateOk env then
      (mkDb (findByIdAndUpdate u_id (users db) (userId doc)
               (fun u => setLastActivity (hookAt env) (incUser (points doc) 1 u)))
            (claims db),
       [])
    else (db, ["Error updating user points:"%string])
  else (db, []).

Definition postClaim (db : Db) (b : ClaimBody) (env : SaveEnv) : Db * Reply Claim :=
  if negb (validateClaim b) then (db, mkReply 400%nat None [])
  else
    match findById u_id (users db) (b_userId b) with
    | None => (db, mkReply 404%nat None [])
    | Some user =>
        if negb (isActive user) then (db, mkReply 404%nat None [])
        else
          let ty := match b_claimType b with Some t => t | None => random end in
          match preSave (claimPoints ty (b_points b) env) with
          | None => (db, mkReply 500%nat None ["Error creating claim:"%string])
          | Some p =>
              let claim := mkClaim (newObjectId (claims db)) (b_userId b) p ty
                             true (savedAt env) in
              let saved := mkDb (users db) (claims db ++ [claim]) in
              let (db', log) := postSave saved claim env in
              (db', mkReply 201%nat (Some claim) log)
          end
    end.

(** ** DELETE /api/claims/:id *)

(** [userUpdateOk] is false when the route's [User.findByIdAndUpdate]
    rejects. *)
Definition deleteClaim (db : Db) (id : ObjectId) (userUpdateOk : bool)
  : Db * Reply Claim :=
  match findById c_id (claims db) id with
  | None => (db, mkReply 404%nat None [])
  | Some c0 =>
      let claim := setInvalid c0 in
      let db1 := mkDb (users db) (findByIdAndUpdate c_id (claims db) id setInvalid) in
      (* populate('userId'): null when the user document is gone, and
         [claim.userId._id] then throws *)
      match findById u_id (users db) (userId claim) with
      | None => (db1, mkReply 500%nat None ["Error invalidating claim:"%string])
      | Some _ =>
          if userUpdateOk then
            (mkDb (findByIdAndUpdate u_id (users db) (userId claim)
                     (incUser (- points claim) (-1)))
                  (claims db1),
             mkReply 200%nat (Some claim) [])
          else (db1, mkReply 500%nat None ["Error invalidating claim:"%string])
      end
  end.

(** ** Requests that write, and their runs *)

Inductive Request :=
| PostClaim (b : ClaimBody) (env : SaveEnv)
| DeleteClaim (id : ObjectId) (userUpdateOk : bool).

Definition handle (db : Db) (r : Request) : Db :=
  match r with
  | PostClaim b env => fst (postClaim db b env)
  | DeleteClaim id ok => fst (deleteClaim db id ok)
  end.

Definition run (db : Db) (rs : list Request) : Db := fold_left handle rs db.

(** ** The ledger's view of a participant *)

Definition validClaimOf (uid : ObjectId) (c : Claim) : bool :=
  isValid c && (userId c =? uid)%nat.

Definition sumPoints (l : list Claim) : Z := fold_right Z.add 0 (map points l).

Definition ledgerPoints (l : list Claim) (uid : ObjectId) : Z :=
  sumPoints (filter (validClaimOf uid) l).

Definition ledgerCount (l : list Claim) (uid : ObjectId) : Z :=
  Z.of_nat (length (filter (validClaimOf uid) l)).

(** Aggregate consistency of one participant and of the whole database. *)
Definition consistentUser (db : Db) (u : User) : Prop :=
  totalPoints u = ledgerPoints (claims db) (u_id u) /\
  claimsCount u = ledgerCount (claims db) (u_id u).

Definition consistent (db : Db) : Prop := Forall (consistentUser db) (users db).

(** [_id] is unique in the users collection. *)
Definition uniqueUsers (db : Db) : Prop := NoDup (map u_id (users db)).

(** ** Query stages: sort, skip, limit, map with index *)

Section Stages.
Context {T : Type}.

(** [before d e]: the sort specification allows [d] in front of [e]. *)
Variable before : T -> T -> bool.

Fixpoint insertDoc (d : T) (l : list T) : list T :=
  match l with
  | [] => [d]
  | e :: l' => if before d e then d :: e :: l' else e :: insertDoc d l'
  end.

(** [.sort(spec)] and [$sort].  The store does not fix the order among
    documents that the specification does not tell apart; here they keep
    their stored order, and no property below depends on it. *)
Definition sortDocs (l : list T) : list T := fold_right insertDoc [] l.

(** [.skip(n)] *)
Definition skipDocs (n : Z) (l : list T) : list T := skipn (Z.to_nat n) l.

(** [.limit(n)] and [$limit], for a positive [n]; the routes below take
    their [limit] as a [positive], what the store does with a limit that
    is zero, negative or not a number is outside the model. *)
Definition limitDocs (n : Z) (l : list T) : list T := firstn (Z.to_nat n) l.
End Stages.

(** [array.map((doc, index) => f(doc, index))], the index counted from [i]. *)
Fixpoint mapIndexFrom {A B : Type} (f : A -> Z -> B) (i : Z) (l : list A) : list B :=
  match l with
  | [] => []
  | a :: l' => f a i :: mapIndexFrom f (i + 1) l'
  end.

Definition mapIndex {A B : Type} (f : A -> Z -> B) (l : list A) : list B :=
  mapIndexFrom f 0 l.

(** ** Badges *)

Inductive Badge := Gold | Silver | Bronze | Top10 | Top50 | Ranked.

Definition getRankBadge (rank : Z) : Badge :=
  if rank =? 1 then Gold
  else if rank =? 2 then Silver
  else if rank =? 3 then Bronze
  else if rank <=? 10 then Top10
  else if rank <=? 50 then Top50
  else Ranked.

(** ** GET /api/leaderboard *)

(** [{ totalPoints: -1, createdAt: 1 }] *)
Definition byPointsThenCreated (u v : User) : bool :=
  (totalPoints v <? totalPoints u) ||
  ((totalPoints u =? totalPoints v) && (u_createdAt u <=? u_createdAt v)).

(** [User.find({ isActive: true }).sort({ totalPoints: -1, createdAt: 1 })] *)
Definition activeRanking (db : Db) : list User :=
  sortDocs byPointsThenCreated (filter isActive (users db)).

(** [userSchema.statics.getTopUsers] *)
Definition getTopUsers (db : Db) (limit : positive) : list User :=
  limitDocs (Z.pos limit) (activeRanking db).

Record RankedUser := mkRankedUser {
  ru_user : User;
  ru_rank : Z;
  ru_badge : Badge
}.

(** The [leaderboard] array of the reply; [limit] defaults to 10. *)
Definition leaderboard (db : Db) (limit : option positive) : list RankedUser :=
  let limitNum := match limit with Some n => n | None => 10%positive end in
  mapIndex (fun user index => mkRankedUser user (index + 1) (getRankBadge (index + 1)))
           (getTopUsers db limitNum).

(** ** GET /api/leaderboard/user/:userId/position *)

Record ContextUser := mkContextUser {
  cu_user : User;
  cu_rank : Z;
  cu_badge : Badge;
  isCurrentUser : bool
}.

Record Position := mkPosition {
  p_user : User;
  p_rank : Z;
  p_badge : Badge;
  p_context : list ContextUser;
  p_totalUsers : Z
}.

(** [usersAbove + 1] for a user document. *)
Definition rankOf (db : Db) (user : User) : Z :=
  countDocuments (fun u => isActive u && (totalPoints user <? totalPoints u))
                 (users db) + 1.

(** The documents of the context query. *)
Definition contextUsers (db : Db) (rank : Z) : list User :=
  let context := 2 in
  limitDocs (context * 2 + 1)
    (skipDocs (Z.max 0 (rank - context - 1)) (activeRanking db)).

Definition position (db : Db) (uid : ObjectId) : Reply Position :=
  match findById u_id (users db) uid with
  | None => mkReply 404%nat None []
  | Some user =>
      if negb (isActive user) then mkReply 404%nat None []
      else
        let rank := rankOf db user in
        let context := 2 in
        let contextWithRanks :=
          mapIndex (fun u index =>
                      mkContextUser u (Z.max 1 (rank - context) + index)
                        (getRankBadge (Z.max 1 (rank - context) + index))
                        (u_id u =? uid)%nat)
                   (contextUsers db rank) in
        mkReply 200%nat
          (Some (mkPosition user rank (getRankBadge rank) contextWithRanks
                   (countDocuments isActive (users db))))
          []
  end.

(** ** Dates

    The time value arithmetic of ECMAScript's [Date], on [Z].  The local time
    zone is a fixed offset [tza] in milliseconds (no daylight saving). *)

Definition msPerDay : Z := 86400000.

Definition Day (t : Z) : Z := t / msPerDay.
Definition TimeWithinDay (t : Z) : Z := t mod msPerDay.

(** Year, month (0 to 11) and day of the month (1 to 31) of a day number,
    in the proleptic Gregorian calendar. *)
Definition civilFromDay (day : Z) : Z * Z * Z :=
  let z := day + 719468 in
  let era := z / 146097 in
  let doe := z - era * 146097 in
  let yoe := (doe - doe / 1460 + doe / 36524 - doe / 146096) / 365 in
  let doy := doe - (365 * yoe + yoe / 4 - yoe / 100) in
  let mp := (5 * doy + 2) / 153 in
  let d := doy - (153 * mp + 2) / 5 + 1 in
  let m := if mp <? 10 then mp + 2 else mp - 10 in
  let y := yoe + era * 400 + (if m <=? 1 then 1 else 0) in
  (y, m, d).

Definition YearFromTime (t : Z) : Z := fst (fst (civilFromDay (Day t))).
Definition MonthFromTime (t : Z) : Z := snd (fst (civilFromDay (Day t))).
Definition DateFromTime (t : Z) : Z := snd (civilFromDay (Day t)).

(** The day number of the first day of month [m] (0 to 11) of year [y]. *)
Definition dayOfMonthStart (y m : Z) : Z :=
  let y' := if m <=? 1 then y - 1 else y in
  let era := y' / 400 in
  let yoe := y' - era * 400 in
  let doy := (153 * (if 1 <? m then m - 2 else m + 10) + 2) / 5 in
  let doe := yoe * 365 + yoe / 4 - yoe / 100 + doy in
  era * 146097 + doe - 719468.

(** [MakeDay(year, month, date)]: months and dates out of range carry over. *)
Definition MakeDay (y m dt : Z) : Z :=
  dayOfMonthStart (y + m / 12) (m mod 12) + dt - 1.

Definition MakeDate (day time : Z) : Z := day * msPerDay + time.

Section LocalZone.
Variable tza : Z.

Definition LocalTime (t : Z) : Z := t + tza.
Definition UTC (t : Z) : Z := t - tza.

Definition getDate (t : Date) : Z := DateFromTime (LocalTime t).
Definition getMonth (t : Date) : Z := MonthFromTime (LocalTime t).
Definition getFullYear (t : Date) : Z := YearFromTime (LocalTime t).

(** [d.setHours(0, 0, 0, 0)] *)
Definition setHoursZero (t : Date) : Date :=
  UTC (MakeDate (Day (LocalTime t)) 0).

(** [d.setDate(dt)] *)
Definition setDate (t : Date) (dt : Z) : Date :=
  let lt := LocalTime t in
  UTC (MakeDate (MakeDay (YearFromTime lt) (MonthFromTime lt) dt)
                (TimeWithinDay lt)).

(** [d.setMonth(m)] *)
Definition setMonth (t : Date) (m : Z) : Date :=
  let lt := LocalTime t in
  UTC (MakeDate (MakeDay (YearFromTime lt) m (DateFromTime lt))
                (TimeWithinDay lt)).

(** [d.setFullYear(y)] *)
Definition setFullYear (t : Date) (y : Z) : Date :=
  let lt := LocalTime t in
  UTC (MakeDate (MakeDay y (MonthFromTime lt) (DateFromTime lt))
                (TimeWithinDay lt)).

(** [getDateRange]: [now] and [start] are the two [new Date()] of the
    function, read from the clock one after the other. *)
Definition getDateRange (now start : Date) (period : string)
  : option (Date * Date) :=
  if String.eqb period "today" then Some (setHoursZero start, now)
  else if String.eqb period "week" then
    Some (setDate start (getDate now - 7), now)
  else if String.eqb period "month" then
    Some (setMonth start (getMonth now - 1), now)
  else if String.eqb period "year" then
    Some (setFullYear start (getFullYear now - 1), now)
  else None.
End LocalZone.

(** ** GET /api/leaderboard/top/:period *)

(** [$match: { isValid: true, createdAt: { $gte: start, $lte: end } }] *)
Definition inWindow (range : Date * Date) (c : Claim) : bool :=
  isValid c && (fst range <=? c_createdAt c) && (c_createdAt c <=? snd range).

Record PeriodGroup := mkPeriodGroup {
  g_id : ObjectId;
  g_periodPoints : Z;
  g_periodClaims : Z
}.

(** [$group: { _id: '$userId', periodPoints: { $sum: '$points' },
    periodClaims: { $sum: 1 } }]: one group for each [userId] that occurs. *)
Definition groupByUser (l : list Claim) : list PeriodGroup :=
  map (fun uid =>
         let mine := filter (fun c => (userId c =? uid)%nat) l in
         mkPeriodGroup uid (sumPoints mine) (Z.of_nat (length mine)))
      (nodup Nat.eq_dec (map userId l)).

(** A row after [$lookup], [$unwind] and [$project]: the fields of the
    joined user document next to the two sums of the group. *)
Record PeriodRow := mkPeriodRow {
  r_user : User;
  periodPoints : Z;
  periodClaims : Z
}.

(** [$lookup] from [users] on [_id], then [$unwind: '$user'], which drops a
    group without a user document. *)
Definition lookupUser (us : list User) (g : PeriodGroup) : list PeriodRow :=
  map (fun u => mkPeriodRow u (g_periodPoints g) (g_periodClaims g))
      (filter (fun u => (u_id u =? g_id g)%nat) us).

(** [$sort: { periodPoints: -1, periodClaims: -1 }] *)
Definition byPeriodPointsThenClaims (r1 r2 : PeriodRow) : bool :=
  (periodPoints r2 <? periodPoints r1) ||
  ((periodPoints r1 =? periodPoints r2) && (periodClaims r2 <=? periodClaims r1)).

(** The pipeline up to and including [$sort]. *)
Definition periodRanking (db : Db) (range : Date * Date) : list PeriodRow :=
  sortDocs byPeriodPointsThenClaims
    (filter (fun r => isActive (r_user r))
       (flat_map (lookupUser (users db))
          (groupByUser (filter (inWindow range) (claims db))))).

Record RankedRow := mkRankedRow {
  rr_row : PeriodRow;
  rr_rank : Z;
  rr_badge : Badge
}.

Record PeriodBoard := mkPeriodBoard {
  pb_leaderboard : list RankedRow;
  pb_start : Date;
  pb_end : Date
}.

(** The route; [limit] defaults to 10. *)
Definition topPeriod (tza : Z) (db : Db) (period : string)
    (limit : option positive) (now start : Date) : Reply PeriodBoard :=
  let limitNum := match limit with Some n => n | None => 10%positive end in
  match getDateRange tza now start period with
  | None => mkReply 400%nat None []
  | Some dateRange =>
      let topUsers := limitDocs (Z.pos limitNum) (periodRanking db dateRange) in
      let board :=
        mapIndex (fun row index =>
                    mkRankedRow row (index + 1) (getRankBadge (index + 1)))
                 topUsers in
      mkReply 200%nat
        (Some (mkPeriodBoard board (fst dateRange) (snd dateRange))) []
  end.

(** ** Orders of the two rankings, as relations *)

Definition userOrder (u v : User) : Prop :=
  totalPoints v < totalPoints u \/
  (totalPoints u = totalPoints v /\ u_createdAt u <= u_createdAt v).

Definition rowOrder (r1 r2 : PeriodRow) : Prop :=
  periodPoints r2 < periodPoints r1 \/
  (periodPoints r1 = periodPoints r2 /\ periodClaims r2 <= periodClaims r1).

(** ** Runs whose writes all land

    A request settles when its aggregate update is not rejected and, for an
    invalidation, when the claim it names is not already invalid. *)
Definition settles (db : Db) (r : Request) : bool :=
  match r with
  | PostClaim _ env => userUpdateOk env
  | DeleteClaim id ok =>
      ok && match findById c_id (claims db) id with
            | Some c => isValid c
            | None => true
            end
  end.

Fixpoint allSettle (db : Db) (rs : list Request) : bool :=
  match rs with
  | [] => true
  | r :: rs' => settles db r && allSettle (handle db r) rs'
  end.

(** ** Aggregates moved by a constant

    The same database with [k] added to the [totalPoints] and [j] to the
    [claimsCount] of participant [uid]. *)
Definition shiftUser (uid : ObjectId) (k j : Z) (u : User) : User :=
  if (u_id u =? uid)%nat then incUser k j u else u.

Definition shiftAggregate (uid : ObjectId) (k j : Z) (db : Db) : Db :=
  mkDb (map (shiftUser uid k j) (users db)) (claims db).

(** The gap between a participant's aggregates and the ledger. *)
Definition drift (db : Db) (uid : ObjectId) : option (Z * Z) :=
  match findById u_id (users db) uid with
  | None => None
  | Some u => Some (totalPoints u - ledgerPoints (claims db) uid,
                    claimsCount u - ledgerCount (claims db) uid)
  end.

(** ** The claim a submission stores *)

(** The document built by [new Claim({...})] for accepted points [p]. *)
Definition claimOfBody (db : Db) (b : ClaimBody) (env : SaveEnv) (p : Z) : Claim :=
  mkClaim (newObjectId (claims db)) (b_userId b) p
          (match b_claimType b with Some t => t | None => random end)
          true (savedAt env).

(** The stored aggregates of a participant. *)
Definition aggregateOf (db : Db) (uid : ObjectId) : option (Z * Z) :=
  match findById u_id (users db) uid with
  | None => None
  | Some u => Some (totalPoints u, claimsCount u)
  end.

(** ** Scenarios *)

(** A participant registered at time 0 with nothing claimed yet. *)
Definition newUser (id : ObjectId) (n : string) (created : Date) : User :=
  mkUser id n 0 0 true created created.

(** One participant, X, and an empty ledger. *)
Definition dbX : Db := mkDb [newUser 1 "X" 0] [].

(** A submission of [p] explicit points for participant [uid] at time [t];
    [ok] tells whether the aggregate update of the hook goes through. *)
Definition submitAt (uid : ObjectId) (p : Z) (t : Date) (ok : bool) : Request :=
  PostClaim (mkBody uid (Some p) None) (mkSaveEnv 0 t t ok).

(** Claims of 5, 3 and 2 points for X; they receive the ids 1, 2 and 3. *)
Definition threeClaims : list Request :=
  [submitAt 1 5 100 true; submitAt 1 3 200 true; submitAt 1 2 300 true].

(** X with a valid 5-point claim in the ledger and aggregates that were
    never incremented, and the same ledger with [totalPoints] at 7. *)
Definition driftedLow : Db :=
  mkDb [mkUser 1 "X" 0 0 true 0 0] [mkClaim 1 1 5 random true 100].

Definition driftedHigh : Db :=
  mkDb [mkUser 1 "X" 7 0 true 0 0] [mkClaim 1 1 5 random true 100].

(** Two participants without points: B is stored first, A registered first
    (A at time 10, B at time 20). *)
Definition dbAB : Db := mkDb [newUser 2 "B" 20; newUser 1 "A" 10] [].

(** The rank in the reply of the position route, when it replies with one. *)
Definition rankReply (db : Db) (uid : ObjectId) : option Z :=
  option_map p_rank (payload (position db uid)).

(** The users of the context in the reply of the position route. *)
Definition contextReply (db : Db) (uid : ObjectId) : option (list ContextUser) :=
  option_map p_context (payload (position db uid)).

(** An active participant holding [p] points, registered at time [created]. *)
Definition userWith (id : ObjectId) (n : string) (p : Z) (created : Date) : User :=
  mkUser id n p 1 true created created.

(** Five active participants with 50, 40, 30, 20 and 10 points. *)
Definition dbFive : Db :=
  mkDb [userWith 1 "P1" 50 1; userWith 2 "P2" 40 2; userWith 3 "P3" 30 3;
        userWith 4 "P4" 20 4; userWith 5 "P5" 10 5] [].

(** Six active participants without points, registered one after the other. *)
Definition dbSixTied : Db :=
  mkDb [newUser 1 "T1" 1; newUser 2 "T2" 2; newUser 3 "T3" 3;
        newUser 4 "T4" 4; newUser 5 "T5" 5; newUser 6 "T6" 6] [].

(** The ids of the participants in the context of the position reply. *)
Definition contextIds (db : Db) (uid : ObjectId) : option (list ObjectId) :=
  option_map (map (fun e => u_id (cu_user e))) (contextReply db uid).

(** ** The window's view of a participant *)

(** The claims of participant [uid] that the window's [$match] lets through. *)
Definition windowClaims (db : Db) (range : Date * Date) (uid : ObjectId)
  : list Claim :=
  filter (fun c => (userId c =? uid)%nat) (filter (inWindow range) (claims db)).

(** [row] is the row of an active participant with at least one valid claim
    created inside the window, and carries the sum and the number of those
    claims. *)
Definition windowRow (db : Db) (range : Date * Date) (row : PeriodRow) : Prop :=
  In (r_user row) (users db) /\
  isActive (r_user row) = true /\
  (exists c, In c (claims db) /\ userId c = u_id (r_user row) /\
             isValid c = true /\
             fst range <= c_createdAt c <= snd range) /\
  periodPoints row = sumPoints (windowClaims db range (u_id (r_user row))) /\
  periodClaims row =
    Z.of_nat (length (windowClaims db range (u_id (r_user row)))).

(** The rows of the windowed leaderboard in the reply. *)
Definition boardRows (r : Reply PeriodBoard) : option (list PeriodRow) :=
  option_map (fun b => map rr_row (pb_leaderboard b)) (payload r).

(** 2025-01-05T03:00:00Z *)
Definition clock : Date := 1736046000000.

(** X and Y, both active, each with one valid claim made within the last
    second. *)
Definition dbTwoToday : Db :=
  mkDb [mkUser 1 "X" 5 1 true (clock - 1000) 0;
        mkUser 2 "Y" 3 1 true (clock - 500) 0]
       [mkClaim 1 1 5 random true (clock - 1000);
        mkClaim 2 2 3 random true (clock - 500)].

(** X, whose only claim, of 5 points, was made 8 days ago. *)
Definition dbEightDays : Db :=
  mkDb [mkUser 1 "X" 5 1 true (clock - 8 * msPerDay) 0]
       [mkClaim 1 1 5 random true (clock - 8 * msPerDay)].

(** * The other routes and model methods *)

(** ** DELETE /api/users/:id *)

(** [{ isActive: false }] *)
Definition setInactive (u : User) : User :=
  mkUser (u_id u) (name u) (totalPoints u) (claimsCount u) false
         (lastActivity u) (u_createdAt u).

(** The route: the user document with [isActive] false, or 404. *)
Definition deactivateUser (db : Db) (id : ObjectId) : Db * Reply User :=
  match findById u_id (users db) id with
  | None => (db, mkReply 404%nat None [])
  | Some user =>
      (mkDb (findByIdAndUpdate u_id (users db) id setInactive) (claims db),
       mkReply 200%nat (Some (setInactive user)) [])
  end.

(** ** Every request that writes *)

Inductive Op :=
| ClaimOp (r : Request)
| DeactivateUser (id : ObjectId).

Definition applyOp (db : Db) (o : Op) : Db :=
  match o with
  | ClaimOp r => handle db r
  | DeactivateUser id => fst (deactivateUser db id)
  end.

Definition runOps (db : Db) (os : list Op) : Db := fold_left applyOp os db.

(** ** Well-formed ledgers *)

(** [_id] is unique in the claims collection. *)
Definition uniqueClaims (db : Db) : Prop := NoDup (map c_id (claims db)).

(** The points of every stored claim are within 1 to 10. *)
Definition pointsInRange (db : Db) : Prop :=
  Forall (fun c => 1 <= points c <= 10) (claims db).

(** Every stored claim names a stored user. *)
Definition ownersExist (db : Db) : Prop :=
  Forall (fun c => findById u_id (users db) (userId c) <> None) (claims db).

(** The fields of a claim that no request changes. *)
Definition claimCore (c : Claim) : ObjectId * ObjectId * Z * ClaimType * Date :=
  (c_id c, userId c, points c, claimType c, c_createdAt c).

(** ** Claim histories *)

(** [{ createdAt: -1 }] *)
Definition byCreatedDesc (c1 c2 : Claim) : bool :=
  c_createdAt c2 <=? c_createdAt c1.

(** [claimSchema.statics.getUserClaimHistory] *)
Definition getUserClaimHistory (db : Db) (uid : ObjectId) (limit : positive)
  : list Claim :=
  limitDocs (Z.pos limit)
    (sortDocs byCreatedDesc
       (filter (fun c => (userId c =? uid)%nat && isValid c) (claims db))).

(** [claimSchema.statics.getRecentClaims] *)
Definition getRecentClaims (db : Db) (limit : positive) : list Claim :=
  limitDocs (Z.pos limit) (sortDocs byCreatedDesc (filter isValid (claims db))).

Record HistoryBody := mkHistoryBody {
  h_user : User;
  h_claims : list Claim
}.

(** GET /api/claims/user/:userId; [limit] defaults to 50. *)
Definition userClaims (db : Db) (uid : ObjectId) (limit : option positive)
  : Reply HistoryBody :=
  match findById u_id (users db) uid with
  | None => mkReply 404%nat None []
  | Some user =>
      let limitNum := match limit with Some n => n | None => 50%positive end in
      mkReply 200%nat
        (Some (mkHistoryBody user (getUserClaimHistory db uid limitNum))) []
  end.

Record RecentBody := mkRecentBody {
  rc_claims : list Claim;
  rc_count : Z
}.

(** GET /api/claims/recent; [limit] defaults to 20. *)
Definition recentClaims (db : Db) (limit : option positive) : Reply RecentBody :=
  let limitNum := match limit with Some n => n | None => 20%positive end in
  let found := getRecentClaims db limitNum in
  mkReply 200%nat (Some (mkRecentBody found (Z.of_nat (length found)))) [].

(** What a claim of the ledger may become under later requests: the same
    claim, possibly invalidated, never valid again. *)
Definition laterVersion (c c' : Claim) : Prop :=
  claimCore c' = claimCore c /\ (isValid c' = true -> isValid c = true).

(** ** More scenarios *)

(** The three submissions for X, then X deactivated, then the first claim
    invalidated. *)
Definition mixedOps : list Op :=
  map ClaimOp threeClaims ++ [DeactivateUser 1; ClaimOp (DeleteClaim 1 true)].

(** Newest first. *)
Definition newestFirst (c1 c2 : Claim) : Prop := c_createdAt c2 <= c_createdAt c1.

(** The claims in the reply of the history route. *)
Definition historyReply (db : Db) (uid : ObjectId) (limit : option positive)
  : option (list Claim) :=
  option_map h_claims (payload (userClaims db uid limit)).

(** ** Statistics

    The [$avg] fields of the statistics are floating-point quotients and are
    left out of the records. *)

Definition sumZ (l : list Z) : Z := fold_right Z.add 0 l.

Record ClaimSummary := mkClaimSummary {
  totalClaims : Z;
  sm_totalPoints : Z;
  minPoints : Z;
  maxPoints : Z
}.

(** [$group: { _id: null, totalClaims: { $sum: 1 }, totalPoints: { $sum:
    '$points' }, minPoints: { $min: '$points' }, maxPoints: { $max: '$points' } }]:
    one document, and none for an empty input. *)
Definition summarize (l : list Claim) : list ClaimSummary :=
  match l with
  | [] => []
  | c :: l' =>
      [mkClaimSummary (Z.of_nat (length l)) (sumPoints l)
         (fold_right Z.min (points c) (map points l'))
         (fold_right Z.max (points c) (map points l'))]
  end.

Record PointsBucket := mkPointsBucket {
  bucketPoints : Z;
  bucketCount : Z
}.

(** [$group: { _id: '$points', count: { $sum: 1 } }] then [$sort: { _id: 1 }] *)
Definition pointsDistribution (l : list Claim) : list PointsBucket :=
  sortDocs (fun a b => bucketPoints a <=? bucketPoints b)
    (map (fun p => mkPointsBucket p
                     (Z.of_nat (length (filter (fun c => points c =? p) l))))
         (nodup Z.eq_dec (map points l))).

Record SummaryBody := mkSummaryBody {
  summary : ClaimSummary;
  distribution : list PointsBucket
}.

(** GET /api/claims/stats/summary: [stats[0] || { ... 0 ... }] *)
Definition statsSummary (db : Db) : SummaryBody :=
  let valid := filter isValid (claims db) in
  mkSummaryBody
    (match summarize valid with
     | s :: _ => s
     | [] => mkClaimSummary 0 0 0 0
     end)
    (pointsDistribution valid).

Record TodayStats := mkTodayStats {
  td_totalPoints : Z;
  td_totalClaims : Z
}.

(** [claimSchema.statics.getTodayStats]; [now] is its [new Date()]. *)
Definition getTodayStats (tza : Z) (now : Date) (db : Db) : list TodayStats :=
  let startOfDay := setHoursZero tza now in
  match filter (fun c => (startOfDay <=? c_createdAt c) && isValid c) (claims db) with
  | [] => []
  | today => [mkTodayStats (sumPoints today) (Z.of_nat (length today))]
  end.

(** GET /api/claims/stats/today *)
Definition statsToday (tza : Z) (now : Date) (db : Db) : TodayStats :=
  match getTodayStats tza now db with
  | s :: _ => s
  | [] => mkTodayStats 0 0
  end.

Record UserStats := mkUserStats {
  totalUsers : Z;
  us_totalPoints : Z;
  us_maxPoints : Z
}.

(** The [$group] over the active users of GET /api/leaderboard, with the
    zeros that the route puts in place of an absent group. *)
Definition userStats (db : Db) : UserStats :=
  match filter isActive (users db) with
  | [] => mkUserStats 0 0 0
  | u :: l =>
      mkUserStats (Z.of_nat (length (u :: l)))
        (sumZ (map totalPoints (u :: l)))
        (fold_right Z.max (totalPoints u) (map totalPoints l))
  end.

Record UsersSummary := mkUsersSummary {
  su_totalUsers : Z;
  su_totalPoints : Z;
  su_totalClaims : Z
}.

(** GET /api/users/stats/summary: the [$group] over the active users, or
    zeros. *)
Definition usersSummary (db : Db) : UsersSummary :=
  match filter isActive (users db) with
  | [] => mkUsersSummary 0 0 0
  | l =>
      mkUsersSummary (Z.of_nat (length l)) (sumZ (map totalPoints l))
        (sumZ (map claimsCount l))
  end.

Record ClaimStats := mkClaimStats {
  cs_totalClaims : Z;
  totalPointsClaimed : Z
}.

(** The [$group] over the valid claims of GET /api/leaderboard. *)
Definition claimStats (db : Db) : ClaimStats :=
  match filter isValid (claims db) with
  | [] => mkClaimStats 0 0
  | l => mkClaimStats (Z.of_nat (length l)) (sumPoints l)
  end.

(** The [stats] of the leaderboard reply: [includeStats === 'true']. *)
Definition leaderboardStats (db : Db) (includeStats : option string)
  : option (UserStats * ClaimStats) :=
  match includeStats with
  | Some flag =>
      if String.eqb flag "true" then Some (userStats db, claimStats db) else None
  | None => None
  end.

(** ** GET /api/claims *)

(** The fields a listing is sorted by. *)
Inductive SortField := SortCreatedAt | SortPoints.

(** The query string; an absent parameter takes its default
    ([page = 1], [limit = 20], [sortBy = 'createdAt'], [sortOrder = 'desc']). *)
Record ClaimsQuery := mkClaimsQuery {
  q_page : option positive;
  q_limit : option positive;
  q_userId : option ObjectId;
  q_claimType : option ClaimType;
  q_startDate : option Date;
  q_endDate : option Date;
  q_sortBy : option SortField;
  q_sortOrder : option string
}.

Definition claimTypeEqb (a b : ClaimType) : bool :=
  match a, b with
  | random, random | bonus, bonus | manual, manual => true
  | _, _ => false
  end.

(** [filterQuery]: valid claims, narrowed by the parameters that are given. *)
Definition matchesQuery (q : ClaimsQuery) (c : Claim) : bool :=
  isValid c &&
  match q_userId q with Some uid => (userId c =? uid)%nat | None => true end &&
  match q_claimType q with Some t => claimTypeEqb (claimType c) t | None => true end &&
  match q_startDate q with Some d => d <=? c_createdAt c | None => true end &&
  match q_endDate q with Some d => c_createdAt c <=? d | None => true end.

Definition sortKey (f : SortField) (c : Claim) : Z :=
  match f with
  | SortCreatedAt => c_createdAt c
  | SortPoints => points c
  end.

(** [sortOptions[sortBy] = sortOrder === 'desc' ? -1 : 1] *)
Definition bySortOptions (q : ClaimsQuery) (c1 c2 : Claim) : bool :=
  let f := match q_sortBy q with Some f => f | None => SortCreatedAt end in
  let desc := match q_sortOrder q with
              | Some o => String.eqb o "desc"
              | None => true
              end in
  if desc then sortKey f c2 <=? sortKey f c1 else sortKey f c1 <=? sortKey f c2.

Record Pagination := mkPagination {
  currentPage : Z;
  totalPages : Z;
  pg_totalClaims : Z;
  hasNextPage : bool;
  hasPrevPage : bool
}.

Record ClaimsPage := mkClaimsPage {
  cp_claims : list Claim;
  pagination : Pagination
}.

(** [Math.ceil(a / b)] for a count [a] and a positive [b]. *)
Definition ceilDiv (a b : Z) : Z := (a + b - 1) / b.

(** All the claims that the query selects, in the order it asks for. *)
Definition selected (db : Db) (q : ClaimsQuery) : list Claim :=
  sortDocs (bySortOptions q) (filter (matchesQuery q) (claims db)).

Definition listClaims (db : Db) (q : ClaimsQuery) : ClaimsPage :=
  let pageNum := Z.pos (match q_page q with Some p => p | None => 1%positive end) in
  let limitNum := Z.pos (match q_limit q with Some n => n | None => 20%positive end) in
  let skip := (pageNum - 1) * limitNum in
  let found := limitDocs limitNum (skipDocs skip (selected db q)) in
  let totalCount := countDocuments (matchesQuery q) (claims db) in
  mkClaimsPage found
    (mkPagination pageNum (ceilDiv totalCount limitNum) totalCount
       (pageNum * limitNum <? totalCount) (1 <? pageNum)).


(** ** Proof steps for the calendar arithmetic *)

(** Linear arithmetic with the quotients and remainders spelled out. *)
Ltac div_lia := Z.to_euclidean_division_equations; lia.



(** ** Saving a user document *)




(** * Properties *)

(** ** Collections *)

Section CollectionFacts.
Context {T : Type}.
Variable key : T -> ObjectId.

Lemma findById_Some (l : list T) (id : ObjectId) (d : T) :
  findById key l id = Some d -> In d l /\ key d = id.
Proof.
  induction l as [|e l IH]; simpl; [discriminate|].
  destruct (Nat.eqb_spec (key e) id) as [E|E].
  - intros [= <-]. auto.
  - intros H. destruct (IH H). auto.
Qed.

Lemma findById_None (l : list T) (id : ObjectId) :
  findById key l id = None -> forall d, In d l -> key d <> id.
Proof.
  induction l as [|e l IH]; simpl; [tauto|].
  destruct (Nat.eqb_spec (key e) id) as [E|E]; [discriminate|].
  intros H d [<-|Hd]; auto.
Qed.

Variable f : T -> T.
Hypothesis f_key : forall d, key (f d) = key d.

Lemma findByIdAndUpdate_keys (l : list T) (id : ObjectId) :
  map key (findByIdAndUpdate key l id f) = map key l.
Proof.
  induction l as [|e l IH]; simpl; [reflexivity|].
  destruct (key e =? id)%nat; simpl; [now rewrite f_key|now rewrite IH].
Qed.

(** With unique keys, updating by id is a map over the collection. *)
Lemma findByIdAndUpdate_map (l : list T) (id : ObjectId) :
  NoDup (map key l) ->
  findByIdAndUpdate key l id f =
  map (fun d => if (key d =? id)%nat then f d else d) l.
Proof.
  induction l as [|e l IH]; simpl; [reflexivity|].
  intros Hnd. inversion Hnd as [|? ? Hnotin Hnd']; subst.
  destruct (Nat.eqb_spec (key e) id) as [E|E].
  - f_equal. symmetry. rewrite <- (map_id l) at 2. apply map_ext_in.
    intros d Hd. destruct (Nat.eqb_spec (key d) id) as [E'|]; [|reflexivity].
    exfalso. apply Hnotin. rewrite E, <- E'. now apply in_map.
  - now rewrite IH.
Qed.
End CollectionFacts.

(** ** The ledger sums *)

Lemma sumPoints_app (l1 l2 : list Claim) :
  sumPoints (l1 ++ l2) = sumPoints l1 + sumPoints l2.
Proof.
  unfold sumPoints. induction l1 as [|c l1 IH]; simpl; [reflexivity|].
  rewrite IH. lia.
Qed.

Lemma ledgerPoints_snoc (l : list Claim) (c : Claim) (uid : ObjectId) :
  ledgerPoints (l ++ [c]) uid =
  ledgerPoints l uid + (if validClaimOf uid c then points c else 0).
Proof.
  unfold ledgerPoints. rewrite filter_app, sumPoints_app. simpl.
  destruct (validClaimOf uid c); unfold sumPoints; simpl; lia.
Qed.

Lemma ledgerCount_snoc (l : list Claim) (c : Claim) (uid : ObjectId) :
  ledgerCount (l ++ [c]) uid =
  ledgerCount l uid + (if validClaimOf uid c then 1 else 0).
Proof.
  unfold ledgerCount. rewrite filter_app, length_app. simpl.
  destruct (validClaimOf uid c); simpl; lia.
Qed.

Lemma validClaimOf_setInvalid (uid : ObjectId) (c : Claim) :
  validClaimOf uid (setInvalid c) = false.
Proof. reflexivity. Qed.

(** Invalidating the claim [c] found under [id] takes its points and its
    unit out of the sums of its owner, when it was valid, and nothing else. *)
Lemma ledgerPoints_invalidate (l : list Claim) (id : ObjectId) (c : Claim)
    (uid : ObjectId) :
  findById c_id l id = Some c ->
  ledgerPoints (findByIdAndUpdate c_id l id setInvalid) uid =
  ledgerPoints l uid - (if validClaimOf uid c then points c else 0).
Proof.
  unfold ledgerPoints.
  induction l as [|e l IH]; cbn -[validClaimOf]; [discriminate|].
  destruct (c_id e =? id)%nat.
  - intros [= ->]. cbn -[validClaimOf]. rewrite validClaimOf_setInvalid.
    destruct (validClaimOf uid c); unfold sumPoints; simpl; lia.
  - intros H. cbn -[validClaimOf]. specialize (IH H).
    destruct (validClaimOf uid e); unfold sumPoints in *; simpl in *; lia.
Qed.

Lemma ledgerCount_invalidate (l : list Claim) (id : ObjectId) (c : Claim)
    (uid : ObjectId) :
  findById c_id l id = Some c ->
  ledgerCount (findByIdAndUpdate c_id l id setInvalid) uid =
  ledgerCount l uid - (if validClaimOf uid c then 1 else 0).
Proof.
  unfold ledgerCount.
  induction l as [|e l IH]; cbn -[validClaimOf]; [discriminate|].
  destruct (c_id e =? id)%nat.
  - intros [= ->]. cbn -[validClaimOf]. rewrite validClaimOf_setInvalid.
    destruct (validClaimOf uid c); cbn [length]; lia.
  - intros H. cbn -[validClaimOf]. specialize (IH H).
    destruct (validClaimOf uid e); cbn [length] in *; lia.
Qed.

(** ** The two writing routes, case by case *)


Lemma preSave_range (q : option Z) (p : Z) :
  preSave q = Some p -> 1 <= p <= 10.
Proof.
  destruct q as [n|]; simpl; [|discriminate].
  destruct (Z.ltb_spec n 1); simpl; [discriminate|].
  destruct (Z.ltb_spec 10 n); [discriminate|].
  intros [= <-]. lia.
Qed.

(** A submission either leaves the database as it is and returns no claim,
    or stores one claim for an active participant and replies 201. *)
Lemma postClaim_inv (db : Db) (b : ClaimBody) (env : SaveEnv) :
  (fst (postClaim db b env) = db /\
   payload (snd (postClaim db b env)) = None /\
   status (snd (postClaim db b env)) <> 201%nat) \/
  (exists user p,
     findById u_id (users db) (b_userId b) = Some user /\
     isActive user = true /\
     1 <= p <= 10 /\
     postClaim db b env =
     (if userUpdateOk env
      then mkDb (findByIdAndUpdate u_id (users db) (b_userId b)
                   (fun u => setLastActivity (hookAt env) (incUser p 1 u)))
                (claims db ++ [claimOfBody db b env p])
      else mkDb (users db) (claims db ++ [claimOfBody db b env p]),
      mkReply 201%nat (Some (claimOfBody db b env p))
        (if userUpdateOk env then [] else ["Error updating user points:"%string]))).
Proof.
  unfold postClaim.
  destruct (validateClaim b); simpl; [|left; repeat split; discriminate].
  destruct (findById u_id (users db) (b_userId b)) as [user|] eqn:Hu;
    [|left; repeat split; discriminate].
  destruct (isActive user) eqn:Ha; simpl; [|left; repeat split; discriminate].
  destruct (preSave _) as [p|] eqn:Hp; [|left; repeat split; discriminate].
  right. exists user, p. repeat split; try apply (preSave_range _ _ Hp); auto.
  unfold postSave, claimOfBody. simpl. destruct (userUpdateOk env); reflexivity.
Qed.

(** An invalidation either finds no claim and changes nothing, or marks the
    claim found invalid and, when the owner exists and the update is not
    rejected, decrements the owner by the claim's points and by one. *)
Lemma deleteClaim_inv (db : Db) (id : ObjectId) (ok : bool) :
  (findById c_id (claims db) id = None /\ deleteClaim db id ok = (db, mkReply 404%nat None [])) \/
  (exists c,
     findById c_id (claims db) id = Some c /\
     claims (fst (deleteClaim db id ok)) =
       findByIdAndUpdate c_id (claims db) id setInvalid /\
     users (fst (deleteClaim db id ok)) =
       match findById u_id (users db) (userId c) with
       | Some _ =>
           if ok then findByIdAndUpdate u_id (users db) (userId c)
                       (incUser (- points c) (-1))
           else users db
       | None => users db
       end).
Proof.
  unfold deleteClaim.
  destruct (findById c_id (claims db) id) as [c|] eqn:Hc; [right|left; auto].
  exists c. simpl. split; [reflexivity|].
  destruct (findById u_id (users db) (userId c)); [destruct ok|]; auto.
Qed.

Lemma handle_user_ids (db : Db) (r : Request) :
  map u_id (users (handle db r)) = map u_id (users db).
Proof.
  destruct r as [b env|id ok]; simpl.
  - destruct (postClaim_inv db b env) as [(-> & _)|(user & p & _ & _ & _ & ->)];
      [reflexivity|].
    destruct (userUpdateOk env); simpl; [|reflexivity].
    now apply findByIdAndUpdate_keys.
  - destruct (deleteClaim_inv db id ok) as [(_ & ->)|(c & _ & _ & ->)];
      [reflexivity|].
    destruct (findById u_id (users db) (userId c)); [destruct ok|]; auto.
    now apply findByIdAndUpdate_keys.
Qed.

Lemma handle_uniqueUsers (db : Db) (r : Request) :
  uniqueUsers db -> uniqueUsers (handle db r).
Proof. unfold uniqueUsers. now rewrite handle_user_ids. Qed.

(** ** Aggregate consistency, one request at a time *)

Lemma postClaim_consistent (db : Db) (b : ClaimBody) (env : SaveEnv) :
  uniqueUsers db -> consistent db -> userUpdateOk env = true ->
  consistent (fst (postClaim db b env)).
Proof.
  intros Hnd Hc Hok.
  destruct (postClaim_inv db b env) as [(-> & _)|(user & p & _ & _ & _ & ->)];
    [assumption|].
  rewrite Hok. unfold consistent in *. simpl.
  rewrite findByIdAndUpdate_map by (assumption || reflexivity).
  rewrite Forall_forall in *. intros u' Hin.
  apply in_map_iff in Hin as (u & <- & Hin).
  destruct (Hc u Hin) as [Hp Hn]. unfold consistentUser. simpl.
  rewrite ledgerPoints_snoc, ledgerCount_snoc.
  unfold validClaimOf, claimOfBody. simpl.
  rewrite (Nat.eqb_sym (b_userId b)).
  destruct (u_id u =? b_userId b)%nat eqn:E; simpl; rewrite ?E; lia.
Qed.

Lemma deleteClaim_consistent (db : Db) (id : ObjectId) :
  uniqueUsers db -> consistent db ->
  settles db (DeleteClaim id true) = true ->
  consistent (fst (deleteClaim db id true)).
Proof.
  intros Hnd Hc Hs. simpl in Hs.
  destruct (deleteClaim_inv db id true) as [(_ & ->)|(c & Hf & Hcl & Hus)];
    [assumption|].
  rewrite Hf in Hs.
  unfold consistent, consistentUser in *. rewrite Hcl, Hus.
  rewrite Forall_forall in *.
  destruct (findById u_id (users db) (userId c)) as [owner|] eqn:Ho.
  - rewrite findByIdAndUpdate_map by (assumption || reflexivity).
    intros u' Hin. apply in_map_iff in Hin as (u & <- & Hin).
    destruct (Hc u Hin) as [Hp Hn].
    rewrite (ledgerPoints_invalidate _ _ _ _ Hf), (ledgerCount_invalidate _ _ _ _ Hf).
    unfold validClaimOf. rewrite Hs, (Nat.eqb_sym (userId c)). simpl.
    destruct (u_id u =? userId c)%nat eqn:E; simpl; rewrite ?E; lia.
  - intros u Hin. destruct (Hc u Hin) as [Hp Hn].
    rewrite (ledgerPoints_invalidate _ _ _ _ Hf), (ledgerCount_invalidate _ _ _ _ Hf).
    unfold validClaimOf. rewrite Hs. simpl.
    destruct (Nat.eqb_spec (userId c) (u_id u)) as [E|E]; [|lia].
    exfalso. exact (findById_None _ _ _ Ho u Hin (eq_sym E)).
Qed.

Lemma handle_consistent (db : Db) (r : Request) :
  uniqueUsers db -> consistent db -> settles db r = true ->
  consistent (handle db r).
Proof.
  destruct r as [b env|id ok]; simpl; intros Hnd Hc Hs.
  - now apply postClaim_consistent.
  - apply andb_prop in Hs as [-> Hs].
    apply deleteClaim_consistent; auto.
Qed.

(** ** Every aggregate write is relative *)

Section MappedUsers.
Variable g : User -> User.
Hypothesis g_id : forall u, u_id (g u) = u_id u.

Lemma findById_map (l : list User) (id : ObjectId) :
  findById u_id (map g l) id = option_map g (findById u_id l id).
Proof.
  induction l as [|u l IH]; simpl; [reflexivity|].
  rewrite g_id. now destruct (u_id u =? id)%nat.
Qed.

Lemma findByIdAndUpdate_commute (f : User -> User) (l : list User) (id : ObjectId) :
  (forall u, f (g u) = g (f u)) ->
  findByIdAndUpdate u_id (map g l) id f = map g (findByIdAndUpdate u_id l id f).
Proof.
  intros Hfg. induction l as [|u l IH]; simpl; [reflexivity|].
  rewrite g_id. destruct (u_id u =? id)%nat; simpl; [now rewrite Hfg|now rewrite IH].
Qed.
End MappedUsers.

Lemma shiftUser_id (uid : ObjectId) (k j : Z) (u : User) :
  u_id (shiftUser uid k j u) = u_id u.
Proof. unfold shiftUser. now destruct (u_id u =? uid)%nat. Qed.

Lemma shiftUser_isActive (uid : ObjectId) (k j : Z) (u : User) :
  isActive (shiftUser uid k j u) = isActive u.
Proof. unfold shiftUser. now destruct (u_id u =? uid)%nat. Qed.

Lemma incUser_shiftUser (uid : ObjectId) (k j dp dc : Z) (u : User) :
  incUser dp dc (shiftUser uid k j u) = shiftUser uid k j (incUser dp dc u).
Proof.
  unfold shiftUser. simpl. destruct (u_id u =? uid)%nat; [|reflexivity].
  unfold incUser. simpl. f_equal; lia.
Qed.

Lemma setLastActivity_shiftUser (uid : ObjectId) (k j : Z) (t : Date) (u : User) :
  setLastActivity t (shiftUser uid k j u) = shiftUser uid k j (setLastActivity t u).
Proof.
  unfold shiftUser. simpl. now destruct (u_id u =? uid)%nat.
Qed.

Lemma handle_shiftAggregate (uid : ObjectId) (k j : Z) (db : Db) (r : Request) :
  handle (shiftAggregate uid k j db) r = shiftAggregate uid k j (handle db r).
Proof.
  unfold shiftAggregate.
  destruct r as [b env|id ok]; simpl.
  - unfold postClaim. simpl.
    destruct (validateClaim b); simpl; [|reflexivity].
    rewrite findById_map by apply shiftUser_id.
    destruct (findById u_id (users db) (b_userId b)) as [user|]; simpl;
      [|reflexivity].
    rewrite shiftUser_isActive.
    destruct (isActive user); simpl; [|reflexivity].
    destruct (preSave _) as [p|]; simpl; [|reflexivity].
    unfold postSave. simpl. destruct (userUpdateOk env); simpl; [|reflexivity].
    f_equal. apply findByIdAndUpdate_commute; [apply shiftUser_id|].
    intros u. now rewrite incUser_shiftUser, setLastActivity_shiftUser.
  - unfold deleteClaim. simpl.
    destruct (findById c_id (claims db) id) as [c|]; simpl; [|reflexivity].
    rewrite findById_map by apply shiftUser_id.
    destruct (findById u_id (users db) (userId c)) as [owner|]; simpl;
      [|reflexivity].
    destruct ok; simpl; [|reflexivity].
    f_equal. apply findByIdAndUpdate_commute; [apply shiftUser_id|].
    intros u. apply incUser_shiftUser.
Qed.

Lemma run_shiftAggregate (uid : ObjectId) (k j : Z) (rs : list Request) (db : Db) :
  run (shiftAggregate uid k j db) rs = shiftAggregate uid k j (run db rs).
Proof.
  revert db. induction rs as [|r rs IH]; intros db; simpl; [reflexivity|].
  now rewrite handle_shiftAggregate, IH.
Qed.

Lemma run_user_ids (rs : list Request) (db : Db) :
  map u_id (users (run db rs)) = map u_id (users db).
Proof.
  revert db. induction rs as [|r rs IH]; intros db; simpl; [reflexivity|].
  now rewrite IH, handle_user_ids.
Qed.

(** ** Fields that an increment leaves alone *)

Lemma findByIdAndUpdate_incUser_lastActivity
    (l : list User) (id : ObjectId) (dp dc : Z) :
  map lastActivity (findByIdAndUpdate u_id l id (incUser dp dc)) =
  map lastActivity l.
Proof.
  induction l as [|u l IH]; simpl; [reflexivity|].
  destruct (u_id u =? id)%nat; simpl; [reflexivity|now rewrite IH].
Qed.

Lemma deleteClaim_lastActivity (db : Db) (id : ObjectId) (ok : bool) :
  map lastActivity (users (fst (deleteClaim db id ok))) =
  map lastActivity (users db).
Proof.
  destruct (deleteClaim_inv db id ok) as [(_ & ->)|(c & _ & _ & ->)];
    [reflexivity|].
  destruct (findById u_id (users db) (userId c)); [destruct ok|]; auto.
  apply findByIdAndUpdate_incUser_lastActivity.
Qed.

(** ** Sorting stage *)

Section SortFacts.
Context {T : Type}.
Variable before : T -> T -> bool.
Variable R : T -> T -> Prop.
Hypothesis before_R : forall a b, before a b = true -> R a b.
Hypothesis before_total : forall a b, before a b = false -> R b a.
Hypothesis R_trans : forall a b c, R a b -> R b c -> R a c.

Lemma insertDoc_perm (d : T) (l : list T) :
  Permutation (insertDoc before d l) (d :: l).
Proof.
  induction l as [|e l IH]; simpl; [reflexivity|].
  destruct (before d e); [reflexivity|].
  rewrite IH. apply perm_swap.
Qed.

Lemma sortDocs_perm (l : list T) : Permutation (sortDocs before l) l.
Proof.
  induction l as [|d l IH]; simpl; [reflexivity|].
  rewrite insertDoc_perm. now constructor.
Qed.

Lemma sortDocs_In (l : list T) (d : T) : In d (sortDocs before l) <-> In d l.
Proof.
  split; apply Permutation_in; [|symmetry]; apply sortDocs_perm.
Qed.

Lemma insertDoc_sorted (d : T) (l : list T) :
  StronglySorted R l -> StronglySorted R (insertDoc before d l).
Proof.
  induction 1 as [|e l Hs IH Hall]; simpl.
  - repeat constructor.
  - destruct (before d e) eqn:Hb.
    + constructor; [now constructor|].
      constructor; [now apply before_R|].
      rewrite Forall_forall in *. eauto using before_R.
    + constructor; [assumption|].
      rewrite Forall_forall in *. intros x Hx.
      apply (Permutation_in _ (insertDoc_perm d l)) in Hx.
      destruct Hx as [<-|Hx]; auto.
Qed.

Lemma sortDocs_sorted (l : list T) : StronglySorted R (sortDocs before l).
Proof.
  induction l as [|d l IH]; simpl; [constructor|now apply insertDoc_sorted].
Qed.
End SortFacts.

Section PrefixFacts.
Context {T : Type}.
Variable R : T -> T -> Prop.

Lemma StronglySorted_firstn (n : nat) (l : list T) :
  StronglySorted R l -> StronglySorted R (firstn n l).
Proof.
  revert l. induction n as [|n IH]; intros l Hs; simpl; [constructor|].
  destruct l as [|d l]; [constructor|].
  inversion Hs as [|? ? Hs' Hall]; subst. constructor; [auto|].
  rewrite Forall_forall in *. intros x Hx. apply Hall.
  rewrite <- (firstn_skipn n l). apply in_or_app. now left.
Qed.

End PrefixFacts.

Lemma limitDocs_In {T : Type} (n : Z) (l : list T) (d : T) :
  In d (limitDocs n l) -> In d l.
Proof.
  unfold limitDocs. generalize (Z.to_nat n) as k.
  intros k. revert l. induction k as [|k IH]; intros [|e l]; simpl; try tauto.
  intros [->|H]; auto.
Qed.

(** ** Mapping with the index *)

Section MapIndexFacts.
Context {A B : Type}.
Variable f : A -> Z -> B.

Lemma mapIndexFrom_length (l : list A) (i : Z) :
  length (mapIndexFrom f i l) = length l.
Proof.
  revert i. induction l as [|a l IH]; intros i; simpl; [reflexivity|].
  now rewrite IH.
Qed.

Lemma mapIndexFrom_nth (l : list A) (i : Z) (n : nat) :
  nth_error (mapIndexFrom f i l) n =
  option_map (fun a => f a (i + Z.of_nat n)) (nth_error l n).
Proof.
  revert i n. induction l as [|a l IH]; intros i [|n]; simpl; try reflexivity.
  - now rewrite Z.add_0_r.
  - rewrite IH. destruct (nth_error l n); simpl; [|reflexivity].
    do 2 f_equal. lia.
Qed.

Lemma mapIndexFrom_map {C : Type} (g : B -> C) (h : A -> C) (l : list A) (i : Z) :
  (forall a k, g (f a k) = h a) ->
  map g (mapIndexFrom f i l) = map h l.
Proof.
  intros Hg. revert i. induction l as [|a l IH]; intros i; simpl; [reflexivity|].
  now rewrite Hg, IH.
Qed.

Lemma mapIndexFrom_index (g : B -> Z) (l : list A) (i : Z) :
  (forall a k, g (f a k) = k + 1) ->
  map g (mapIndexFrom f i l) =
  map (fun n => i + Z.of_nat n) (seq 1 (length l)).
Proof.
  intros Hg. revert i. induction l as [|a l IH]; intros i; simpl; [reflexivity|].
  rewrite Hg, IH. f_equal. rewrite <- (seq_shift _ 1), map_map.
  apply map_ext. intros n. lia.
Qed.
End MapIndexFacts.

Lemma NoDup_ranks (n : nat) : NoDup (map Z.of_nat (seq 1 n)).
Proof.
  apply Finite.Injective_map_NoDup; [|apply seq_NoDup].
  intros a b. apply Nat2Z.inj.
Qed.

(** ** The order of the global ranking *)

Lemma byPointsThenCreated_order (u v : User) :
  byPointsThenCreated u v = true -> userOrder u v.
Proof.
  unfold byPointsThenCreated, userOrder. intros H.
  apply orb_prop in H as [H|H]; [left; lia|].
  apply andb_prop in H as [H1 H2]. right. lia.
Qed.

Lemma byPointsThenCreated_total (u v : User) :
  byPointsThenCreated u v = false -> userOrder v u.
Proof.
  unfold byPointsThenCreated, userOrder. intros H.
  apply orb_false_elim in H as [H1 H2]. apply andb_false_elim in H2.
  destruct H2 as [H2|H2]; lia.
Qed.

Lemma userOrder_trans (u v w : User) :
  userOrder u v -> userOrder v w -> userOrder u w.
Proof. unfold userOrder. lia. Qed.

Lemma activeRanking_sorted (db : Db) : StronglySorted userOrder (activeRanking db).
Proof.
  apply sortDocs_sorted.
  - apply byPointsThenCreated_order.
  - apply byPointsThenCreated_total.
  - apply userOrder_trans.
Qed.

Lemma activeRanking_perm (db : Db) :
  Permutation (activeRanking db) (filter isActive (users db)).
Proof. apply sortDocs_perm. Qed.

Lemma activeRanking_In (db : Db) (u : User) :
  In u (activeRanking db) <-> In u (users db) /\ isActive u = true.
Proof.
  unfold activeRanking. rewrite sortDocs_In. apply filter_In.
Qed.

(** ** The position route *)

Lemma filter_none {T : Type} (p : T -> bool) (l : list T) :
  (forall d, In d l -> p d = false) -> filter p l = [].
Proof.
  induction l as [|d l IH]; simpl; intros H; [reflexivity|].
  rewrite (H d) by now left. apply IH. intros e He. apply H. now right.
Qed.

Lemma position_active (db : Db) (uid : ObjectId) (user : User) :
  findById u_id (users db) uid = Some user -> isActive user = true ->
  rankReply db uid = Some (rankOf db user) /\
  contextReply db uid =
  Some (mapIndex (fun u index =>
                    mkContextUser u (Z.max 1 (rankOf db user - 2) + index)
                      (getRankBadge (Z.max 1 (rankOf db user - 2) + index))
                      (u_id u =? uid)%nat)
                 (contextUsers db (rankOf db user))).
Proof.
  intros Hu Ha. unfold rankReply, contextReply, position.
  rewrite Hu, Ha. simpl. auto.
Qed.

Lemma rankOf_pos (db : Db) (user : User) : 1 <= rankOf db user.
Proof. unfold rankOf, countDocuments. lia. Qed.

Lemma contextUsers_window (db : Db) (rank : Z) :
  1 <= rank ->
  contextUsers db rank =
  firstn 5 (skipn (Z.to_nat (rank - 1) - 2) (activeRanking db)).
Proof.
  intros Hr. unfold contextUsers, limitDocs, skipDocs.
  replace (Z.to_nat (Z.max 0 (rank - 2 - 1))) with (Z.to_nat (rank - 1) - 2)%nat
    by lia.
  reflexivity.
Qed.

(** ** Without ties the rank is the place in the ordering *)

Lemma filter_all {T : Type} (p : T -> bool) (l : list T) :
  (forall d, In d l -> p d = true) -> filter p l = l.
Proof.
  induction l as [|d l IH]; simpl; intros H; [reflexivity|].
  rewrite (H d) by now left. f_equal. apply IH. intros e He. apply H. now right.
Qed.

Lemma filter_length_perm {T : Type} (p : T -> bool) (l l' : list T) :
  Permutation l l' -> length (filter p l) = length (filter p l').
Proof.
  induction 1 as [|d l l' _ IH|d e l|l l' l'' _ IH1 _ IH2]; simpl.
  - reflexivity.
  - destruct (p d); simpl; now rewrite IH.
  - destruct (p d), (p e); reflexivity.
  - now rewrite IH1.
Qed.

Lemma filter_andb {T : Type} (p q : T -> bool) (l : list T) :
  filter (fun d => p d && q d) l = filter q (filter p l).
Proof.
  induction l as [|d l IH]; simpl; [reflexivity|].
  destruct (p d); simpl; [destruct (q d)|]; now rewrite IH.
Qed.

Lemma StronglySorted_middle {T : Type} (R : T -> T -> Prop) (l1 l2 : list T) (d : T) :
  StronglySorted R (l1 ++ d :: l2) ->
  (forall x, In x l1 -> R x d) /\ (forall y, In y l2 -> R d y).
Proof.
  induction l1 as [|e l1 IH]; simpl; intros Hs.
  - inversion Hs as [|? ? _ Hall]; subst. rewrite Forall_forall in Hall.
    split; [tauto|assumption].
  - inversion Hs as [|? ? Hs' Hall]; subst. rewrite Forall_forall in Hall.
    destruct (IH Hs') as [H1 H2]. split; [|assumption].
    intros x [<-|Hx]; [|auto]. apply Hall, in_or_app. right. now left.
Qed.

Lemma activeRanking_NoDup (db : Db) : uniqueUsers db -> NoDup (activeRanking db).
Proof.
  intros Hnd. apply (Permutation_NoDup (Permutation_sym (activeRanking_perm db))).
  apply NoDup_filter. now apply NoDup_map_inv with (f := u_id).
Qed.

Lemma place_is_rank_without_ties (db : Db) (user : User) :
  uniqueUsers db ->
  In user (users db) ->
  isActive user = true ->
  (forall v, In v (users db) -> isActive v = true ->
             totalPoints v = totalPoints user -> v = user) ->
  nth_error (activeRanking db) (Z.to_nat (rankOf db user - 1)) = Some user.
Proof.
  intros Hnd Hin Ha Hties.
  assert (HinL : In user (activeRanking db)) by now apply activeRanking_In.
  destruct (in_split _ _ HinL) as (l1 & l2 & HL).
  pose proof (activeRanking_sorted db) as Hs.
  pose proof (activeRanking_NoDup db Hnd) as HndL.
  rewrite HL in Hs, HndL.
  destruct (StronglySorted_middle _ _ _ _ Hs) as [Habove Hbelow].
  apply NoDup_remove in HndL as [_ Hnotin].
  assert (Hmem : forall x, In x (l1 ++ l2) ->
                 In x (users db) /\ isActive x = true /\ x <> user).
  { intros x Hx.
    assert (Hx' : In x (activeRanking db)).
    { rewrite HL. apply in_app_or in Hx. apply in_or_app.
      destruct Hx; [now left|right; now right]. }
    apply activeRanking_In in Hx' as [H1 H2]. repeat split; auto.
    intros ->. contradiction. }
  assert (Hcount : rankOf db user - 1 = Z.of_nat (length l1)).
  { unfold rankOf, countDocuments. rewrite filter_andb.
    rewrite <- (filter_length_perm _ _ _ (activeRanking_perm db)), HL.
    rewrite filter_app. simpl. rewrite Z.ltb_irrefl.
    rewrite (filter_all _ l1), (filter_none _ l2).
    - rewrite length_app. simpl. lia.
    - intros y Hy. apply Z.ltb_ge.
      destruct (Hmem y) as (Hy1 & Hy2 & Hy3); [apply in_or_app; now right|].
      destruct (Hbelow y Hy) as [Hlt|[Heq _]]; [lia|].
      exfalso. apply Hy3. apply Hties; auto.
    - intros x Hx. apply Z.ltb_lt.
      destruct (Hmem x) as (Hx1 & Hx2 & Hx3); [apply in_or_app; now left|].
      destruct (Habove x Hx) as [Hlt|[Heq _]]; [lia|].
      exfalso. apply Hx3. apply Hties; auto. }
  rewrite Hcount, Nat2Z.id, HL.
  rewrite nth_error_app2 by lia. now rewrite Nat.sub_diag.
Qed.

(** ** The windowed pipeline *)

Lemma inWindow_spec (range : Date * Date) (c : Claim) :
  inWindow range c = true <->
  isValid c = true /\ fst range <= c_createdAt c <= snd range.
Proof.
  unfold inWindow. rewrite !andb_true_iff, !Z.leb_le. tauto.
Qed.

Lemma windowClaims_In (db : Db) (range : Date * Date) (uid : ObjectId) (c : Claim) :
  In c (windowClaims db range uid) <->
  In c (claims db) /\ userId c = uid /\
  isValid c = true /\ fst range <= c_createdAt c <= snd range.
Proof.
  unfold windowClaims. rewrite !filter_In, inWindow_spec, Nat.eqb_eq. tauto.
Qed.

Lemma groupByUser_ids (l : list Claim) :
  map g_id (groupByUser l) = nodup Nat.eq_dec (map userId l).
Proof.
  unfold groupByUser. rewrite map_map. simpl. apply map_id.
Qed.

Lemma groupByUser_In (l : list Claim) (g : PeriodGroup) :
  In g (groupByUser l) <->
  In (g_id g) (map userId l) /\
  g_periodPoints g = sumPoints (filter (fun c => (userId c =? g_id g)%nat) l) /\
  g_periodClaims g =
    Z.of_nat (length (filter (fun c => (userId c =? g_id g)%nat) l)).
Proof.
  unfold groupByUser. rewrite in_map_iff. split.
  - intros (uid & <- & Hin). apply nodup_In in Hin. simpl. auto.
  - intros (Hin & Hp & Hc). exists (g_id g). split; [|now apply nodup_In].
    destruct g as [i p n]. simpl in *. now rewrite Hp, Hc.
Qed.

Lemma lookupUser_In (us : list User) (g : PeriodGroup) (row : PeriodRow) :
  In row (lookupUser us g) <->
  In (r_user row) us /\ u_id (r_user row) = g_id g /\
  periodPoints row = g_periodPoints g /\ periodClaims row = g_periodClaims g.
Proof.
  unfold lookupUser. rewrite in_map_iff. split.
  - intros (u & <- & Hin). apply filter_In in Hin as [Hin Hid].
    apply Nat.eqb_eq in Hid. simpl. auto.
  - intros (Hin & Hid & Hp & Hc). exists (r_user row). split.
    + destruct row as [u p n]. simpl in *. now rewrite Hp, Hc.
    + apply filter_In. split; [assumption|now apply Nat.eqb_eq].
Qed.

Lemma lookupUser_ids (us : list User) (g : PeriodGroup) :
  NoDup (map u_id us) ->
  NoDup (map (fun r => u_id (r_user r)) (lookupUser us g)) /\
  forall k, In k (map (fun r => u_id (r_user r)) (lookupUser us g)) -> k = g_id g.
Proof.
  intros Hnd. unfold lookupUser. rewrite map_map. simpl. split.
  - induction us as [|u us IH]; simpl; [constructor|].
    inversion Hnd as [|? ? Hnotin Hnd']; subst.
    destruct (u_id u =? g_id g)%nat; simpl; [|auto].
    constructor; [|auto]. intros Hin. apply Hnotin.
    apply in_map_iff in Hin as (v & Hv & Hin). apply filter_In in Hin as [Hin _].
    rewrite <- Hv. now apply in_map.
  - intros k Hin. apply in_map_iff in Hin as (v & <- & Hin).
    apply filter_In in Hin as [_ Hid]. now apply Nat.eqb_eq.
Qed.

Lemma flat_map_lookup_NoDup (us : list User) (gs : list PeriodGroup) :
  NoDup (map u_id us) -> NoDup (map g_id gs) ->
  NoDup (map (fun r => u_id (r_user r)) (flat_map (lookupUser us) gs)).
Proof.
  intros Hus. induction gs as [|g gs IH]; simpl; intros Hgs; [constructor|].
  inversion Hgs as [|? ? Hnotin Hgs']; subst.
  rewrite map_app. destruct (lookupUser_ids us g Hus) as [Hnd Hall].
  apply NoDup_app; [assumption|auto|].
  intros k Hk Hk'. apply Hall in Hk. subst k. apply Hnotin.
  apply in_map_iff in Hk' as (row & Hid & Hrow).
  apply in_flat_map in Hrow as (g' & Hg' & Hrow).
  apply lookupUser_In in Hrow as (_ & Hid' & _).
  rewrite <- Hid, Hid'. now apply in_map.
Qed.

(** The [$match] on [user.isActive] keeps the rows of distinct users
    distinct. *)
Lemma activeRows_NoDup (rows : list PeriodRow) :
  NoDup (map (fun r => u_id (r_user r)) rows) ->
  NoDup (map (fun r => u_id (r_user r))
             (filter (fun r => isActive (r_user r)) rows)).
Proof.
  intros Hnd. induction rows as [|row rows IH]; simpl; [constructor|].
  inversion Hnd as [|? ? Hfresh Hrest]; subst.
  destruct (isActive (r_user row)); simpl; [|now apply IH].
  constructor; [|now apply IH].
  intros Hin. apply Hfresh.
  apply in_map_iff in Hin as (r & Hr & Hin).
  apply filter_In in Hin as [Hin _].
  apply in_map_iff. now exists r.
Qed.

Lemma periodRanking_In (db : Db) (range : Date * Date) (row : PeriodRow) :
  In row (periodRanking db range) <-> windowRow db range row.
Proof.
  unfold periodRanking, windowRow. rewrite sortDocs_In, filter_In, in_flat_map.
  split.
  - intros ((g & Hg & Hrow) & Ha).
    apply lookupUser_In in Hrow as (Hin & Hid & Hp & Hc).
    apply groupByUser_In in Hg as (Hex & Hgp & Hgc).
    apply in_map_iff in Hex as (c & Hcid & Hcin).
    apply filter_In in Hcin as [Hcin Hw]. apply inWindow_spec in Hw.
    unfold windowClaims. rewrite Hid, Hp, Hc.
    split; [assumption|]. split; [assumption|]. split; [|split; assumption].
    exists c. split; [assumption|]. split; [congruence|assumption].
  - intros (Hin & Ha & (c & Hcin & Hcid & Hv & Hw) & Hp & Hc).
    split; [|assumption].
    exists (mkPeriodGroup (u_id (r_user row)) (periodPoints row) (periodClaims row)).
    split.
    + apply groupByUser_In. simpl. split; [|split; assumption].
      apply in_map_iff. exists c. split; [assumption|].
      apply filter_In. split; [assumption|]. apply inWindow_spec. tauto.
    + apply lookupUser_In. simpl. auto.
Qed.

Lemma periodRanking_NoDup (db : Db) (range : Date * Date) :
  uniqueUsers db ->
  NoDup (map (fun r => u_id (r_user r)) (periodRanking db range)).
Proof.
  intros Hnd. unfold periodRanking.
  eapply Permutation_NoDup.
  - apply Permutation_map, Permutation_sym, sortDocs_perm.
  - apply activeRows_NoDup, flat_map_lookup_NoDup; [assumption|].
    rewrite groupByUser_ids. apply NoDup_nodup.
Qed.

Lemma byPeriodPointsThenClaims_order (r1 r2 : PeriodRow) :
  byPeriodPointsThenClaims r1 r2 = true -> rowOrder r1 r2.
Proof.
  unfold byPeriodPointsThenClaims, rowOrder. intros H.
  apply orb_prop in H as [H|H]; [left; lia|].
  apply andb_prop in H as [H1 H2]. right. lia.
Qed.

Lemma byPeriodPointsThenClaims_total (r1 r2 : PeriodRow) :
  byPeriodPointsThenClaims r1 r2 = false -> rowOrder r2 r1.
Proof.
  unfold byPeriodPointsThenClaims, rowOrder. intros H.
  apply orb_false_elim in H as [H1 H2]. apply andb_false_elim in H2.
  destruct H2 as [H2|H2]; lia.
Qed.

Lemma rowOrder_trans (r1 r2 r3 : PeriodRow) :
  rowOrder r1 r2 -> rowOrder r2 r3 -> rowOrder r1 r3.
Proof. unfold rowOrder. lia. Qed.

Lemma periodRanking_sorted (db : Db) (range : Date * Date) :
  StronglySorted rowOrder (periodRanking db range).
Proof.
  apply sortDocs_sorted.
  - apply byPeriodPointsThenClaims_order.
  - apply byPeriodPointsThenClaims_total.
  - apply rowOrder_trans.
Qed.

(** ** The window of [today] *)

Lemma setHoursZero_bounds (tza : Z) (t : Date) :
  t - msPerDay < setHoursZero tza t <= t.
Proof.
  unfold setHoursZero, UTC, MakeDate, Day, LocalTime.
  assert (Hd : 0 < msPerDay) by reflexivity.
  pose proof (Z.mod_pos_bound (t + tza) msPerDay Hd) as Hm.
  pose proof (Z.div_mod (t + tza) msPerDay) as Hdm.
  assert (Hne : msPerDay <> 0) by discriminate. specialize (Hdm Hne).
  nia.
Qed.

Lemma today_window (tza : Z) (now start : Date) :
  getDateRange tza now start "today" = Some (setHoursZero tza start, now).
Proof. reflexivity. Qed.

Lemma today_excludes_older (tza : Z) (now start : Date) (c : Claim) :
  now <= start ->
  c_createdAt c <= now - msPerDay ->
  inWindow (setHoursZero tza start, now) c = false.
Proof.
  intros Hclock Hold. pose proof (setHoursZero_bounds tza start) as Hb.
  unfold inWindow. simpl.
  replace (setHoursZero tza start <=? c_createdAt c) with false
    by (symmetry; apply Z.leb_gt; lia).
  now rewrite andb_false_r.
Qed.

(** * Aggregate consistency *)

(** C1, as stated, fails: a submission whose aggregate update is rejected
    inside the post-save hook stores a valid 5-point claim for X and replies
    201, and X's [totalPoints] and [claimsCount] stay 0. *)
Lemma consistency_lost_when_hook_update_fails :
  uniqueUsers dbX /\ consistent dbX /\
  status (snd (postClaim dbX (mkBody 1 (Some 5) None) (mkSaveEnv 0 100 100 false)))
    = 201%nat /\
  ~ consistent (run dbX [submitAt 1 5 100 false]).
Proof.
  split; [|split; [|split]].
  - repeat constructor. simpl. tauto.
  - repeat constructor.
  - reflexivity.
  - intros H. inversion H as [|u l [Hp _] _]. vm_compute in Hp. discriminate.
Qed.

(** C1, amended: for every database with unique participant ids whose
    aggregates agree with the ledger, and every sequence of submissions and
    invalidations in which each aggregate update goes through and each
    invalidation names a claim that is not already invalid, every
    participant's [totalPoints] is the sum of the points of their valid
    claims and [claimsCount] their number, after the whole sequence (and so
    after each single submission or invalidation). *)
Theorem aggregate_consistency_settled (db : Db) (rs : list Request) :
  uniqueUsers db -> consistent db -> allSettle db rs = true ->
  consistent (run db rs).
Proof.
  revert db. induction rs as [|r rs IH]; intros db Hnd Hc Hs; simpl in *.
  - assumption.
  - apply andb_prop in Hs as [Hr Hrs].
    apply IH; auto using handle_uniqueUsers, handle_consistent.
Qed.

Lemma aggregate_consistency_settled_witness :
  consistent (run dbX (threeClaims ++ [DeleteClaim 1 true])).
Proof.
  apply aggregate_consistency_settled.
  - repeat constructor. simpl. tauto.
  - repeat constructor.
  - reflexivity.
Defined.

(** * Invalidation twice *)

(** C2 on the code: after claims of 5, 3 and 2 points X stands at (10, 3);
    the first DELETE of the 5-point claim gives (5, 2), which is what the
    ledger holds; the second DELETE of the same claim replies 200 again and
    leaves X at (0, 1), while the ledger still holds 5 points in 2 valid
    claims.  On a participant whose only claim it is, the second DELETE
    drives both aggregates below zero. *)
Theorem deleteClaim_twice_decrements_twice :
  let db3 := run dbX threeClaims in
  let once := run db3 [DeleteClaim 1 true] in
  let twice := run db3 [DeleteClaim 1 true; DeleteClaim 1 true] in
  aggregateOf db3 1%nat = Some (10, 3) /\
  aggregateOf once 1%nat = Some (5, 2) /\
  status (snd (deleteClaim once 1 true)) = 200%nat /\
  aggregateOf twice 1%nat = Some (0, 1) /\
  (ledgerPoints (claims twice) 1, ledgerCount (claims twice) 1) = (5, 2) /\
  aggregateOf
    (run dbX [submitAt 1 5 100 true; DeleteClaim 1 true; DeleteClaim 1 true])
    1%nat = Some (-5, -1).
Proof. vm_compute. repeat split; reflexivity. Qed.

(** * Reconciliation *)

(** C3, as stated, fails: the code has no reconciliation routine, and no
    sequence of the requests it serves stands in for one.  Of two databases
    with the same ledger, one with X's [totalPoints] at 0 and one with it at
    7, no sequence of submissions and invalidations makes both consistent. *)
Lemma no_request_sequence_reconciles :
  ~ exists rs : list Request,
      consistent (run driftedLow rs) /\ consistent (run driftedHigh rs).
Proof.
  intros (rs & Hlow & Hhigh).
  change driftedHigh with (shiftAggregate 1 7 0 driftedLow) in Hhigh.
  rewrite run_shiftAggregate in Hhigh.
  pose proof (run_user_ids rs driftedLow) as Hids.
  unfold consistent in *. unfold shiftAggregate in Hhigh. simpl in Hhigh, Hids.
  destruct (users (run driftedLow rs)) as [|u [|v l]]; try discriminate.
  injection Hids as Hid.
  inversion Hlow as [|? ? [Hp _] _]. inversion Hhigh as [|? ? [Hp' _] _].
  rewrite shiftUser_id in Hp'. unfold shiftUser in Hp'.
  rewrite Hid in Hp, Hp'. simpl in Hp'. lia.
Qed.

(** C3, amended: no routine of the code recomputes a participant's
    aggregates from the ledger; every write to [totalPoints] and
    [claimsCount] is a relative increment.  So a gap between the aggregates
    and the ledger is carried along unchanged: for every database, every
    participant and every sequence of submissions and invalidations, starting
    with the aggregates moved by (k, j) ends with the same database with the
    aggregates moved by (k, j), and the participant's drift from the ledger
    larger by exactly (k, j). *)
Theorem aggregates_never_reset_from_ledger
    (db : Db) (rs : list Request) (uid : ObjectId) (k j : Z) :
  run (shiftAggregate uid k j db) rs = shiftAggregate uid k j (run db rs) /\
  drift (run (shiftAggregate uid k j db) rs) uid =
  option_map (fun d => (fst d + k, snd d + j)) (drift (run db rs) uid).
Proof.
  split; [apply run_shiftAggregate|].
  rewrite run_shiftAggregate. unfold drift, shiftAggregate. simpl.
  rewrite findById_map by apply shiftUser_id.
  destruct (findById u_id (users (run db rs)) uid) as [u|] eqn:Hu; simpl;
    [|reflexivity].
  apply findById_Some in Hu as [_ Hu]. unfold shiftUser.
  rewrite Hu, Nat.eqb_refl. simpl. f_equal. f_equal; lia.
Qed.

(** * Last activity *)

(** C8 on the code: a submission whose hook runs at time 100 sets X's
    [lastActivity] to 100; the DELETE of that claim replies 200, takes the
    points back and leaves [lastActivity] at 100, whatever the time of the
    request, which the route never reads.  No invalidation changes any
    participant's [lastActivity]. *)
Theorem deleteClaim_leaves_lastActivity :
  let claimed := run dbX [submitAt 1 5 100 true] in
  map lastActivity (users dbX) = [0] /\
  map lastActivity (users claimed) = [100] /\
  status (snd (deleteClaim claimed 1 true)) = 200%nat /\
  aggregateOf (fst (deleteClaim claimed 1 true)) 1 = Some (0, 0) /\
  map lastActivity (users (fst (deleteClaim claimed 1 true))) = [100] /\
  forall (db : Db) (id : ObjectId) (ok : bool),
    map lastActivity (users (fst (deleteClaim db id ok))) =
    map lastActivity (users db).
Proof.
  repeat split; try reflexivity. apply deleteClaim_lastActivity.
Qed.

(** * Unknown or inactive participant *)

(** C9: a submission that names a participant who does not exist or is
    inactive is rejected (404, or 400 when the body does not pass
    validation) without a claim in the reply, and the database, ledger and
    every participant's aggregates alike, is what it was. *)
Theorem postClaim_unknown_or_inactive (db : Db) (b : ClaimBody) (env : SaveEnv) :
  match findById u_id (users db) (b_userId b) with
  | Some user => isActive user = false
  | None => True
  end ->
  fst (postClaim db b env) = db /\
  payload (snd (postClaim db b env)) = None /\
  status (snd (postClaim db b env)) = (if validateClaim b then 404 else 400)%nat.
Proof.
  unfold postClaim. intros H.
  destruct (validateClaim b); simpl; [|auto].
  destruct (findById u_id (users db) (b_userId b)) as [user|]; [|auto].
  rewrite H. auto.
Qed.

Lemma postClaim_unknown_or_inactive_witness :
  fst (postClaim dbX (mkBody 2 (Some 5) None) (mkSaveEnv 0 100 100 true)) = dbX /\
  payload (snd (postClaim dbX (mkBody 2 (Some 5) None) (mkSaveEnv 0 100 100 true)))
    = None /\
  status (snd (postClaim dbX (mkBody 2 (Some 5) None) (mkSaveEnv 0 100 100 true)))
    = 404%nat.
Proof.
  apply (postClaim_unknown_or_inactive dbX (mkBody 2 (Some 5) None)
           (mkSaveEnv 0 100 100 true)).
  simpl. exact I.
Defined.

(** * A rejected aggregate update *)

(** C10: when the submission passes validation, names an active participant
    and carries points the save accepts, and the user update of the
    post-save hook is rejected, the route replies 201 with the created
    claim; the claim is in the ledger, valid; the users collection, and so
    every [totalPoints] and [claimsCount], is untouched; the only trace of
    the failure is the logged message. *)
Theorem postClaim_hook_failure_is_swallowed
    (db : Db) (b : ClaimBody) (env : SaveEnv) (user : User) (p : Z) :
  validateClaim b = true ->
  findById u_id (users db) (b_userId b) = Some user ->
  isActive user = true ->
  preSave (claimPoints (match b_claimType b with Some t => t | None => random end)
                       (b_points b) env) = Some p ->
  userUpdateOk env = false ->
  postClaim db b env =
  (mkDb (users db) (claims db ++ [claimOfBody db b env p]),
   mkReply 201%nat (Some (claimOfBody db b env p))
           ["Error updating user points:"%string]) /\
  isValid (claimOfBody db b env p) = true /\
  points (claimOfBody db b env p) = p /\
  userId (claimOfBody db b env p) = b_userId b.
Proof.
  intros Hv Hu Ha Hp Hok. unfold postClaim, postSave.
  rewrite Hv, Hu, Ha, Hp. simpl. rewrite Hok. auto.
Qed.

Lemma postClaim_hook_failure_is_swallowed_witness :
  postClaim dbX (mkBody 1 (Some 5) None) (mkSaveEnv 0 100 100 false) =
  (mkDb (users dbX)
        (claims dbX ++ [claimOfBody dbX (mkBody 1 (Some 5) None)
                          (mkSaveEnv 0 100 100 false) 5]),
   mkReply 201%nat
     (Some (claimOfBody dbX (mkBody 1 (Some 5) None) (mkSaveEnv 0 100 100 false) 5))
     ["Error updating user points:"%string]).
Proof.
  apply (postClaim_hook_failure_is_swallowed dbX (mkBody 1 (Some 5) None)
           (mkSaveEnv 0 100 100 false) (newUser 1 "X" 0) 5); reflexivity.
Defined.

(** * Global leaderboard *)

(** C4: every entry of the global leaderboard is an active participant of
    the database; the entries are in [totalPoints]-descending order with
    equal totals in [createdAt]-ascending order; the ranks are 1, 2, ..., N
    in that order, N being the number of entries (the limit or, when fewer,
    the number of active participants), so no rank occurs twice, ties in
    [totalPoints] or not. *)
Theorem leaderboard_positional_ranking (db : Db) (limit : option positive) :
  let board := leaderboard db limit in
  let limitNum := match limit with Some n => n | None => 10%positive end in
  (forall e, In e board ->
     In (ru_user e) (users db) /\ isActive (ru_user e) = true) /\
  StronglySorted userOrder (map ru_user board) /\
  map ru_rank board = map Z.of_nat (seq 1 (length board)) /\
  NoDup (map ru_rank board) /\
  length board =
    Nat.min (Pos.to_nat limitNum) (length (filter isActive (users db))).
Proof.
  intros board limitNum.
  assert (Husers : map ru_user board = getTopUsers db limitNum).
  { unfold board, leaderboard, mapIndex. fold limitNum.
    rewrite mapIndexFrom_map with (h := fun u => u) by reflexivity.
    apply map_id. }
  assert (Hranks : map ru_rank board = map Z.of_nat (seq 1 (length board))).
  { unfold board, leaderboard, mapIndex.
    rewrite mapIndexFrom_index by reflexivity.
    now rewrite mapIndexFrom_length. }
  split; [|split; [|split; [|split]]].
  - intros e He. apply activeRanking_In.
    apply limitDocs_In with (n := Z.pos limitNum).
    change (In (ru_user e) (getTopUsers db limitNum)).
    rewrite <- Husers. now apply in_map.
  - rewrite Husers. apply StronglySorted_firstn, activeRanking_sorted.
  - exact Hranks.
  - rewrite Hranks. apply NoDup_ranks.
  - rewrite <- (length_map ru_user), Husers.
    unfold getTopUsers, limitDocs. rewrite length_firstn.
    now rewrite (Permutation_length (activeRanking_perm db)).
Qed.

(** The tie of the scenario: A and B both hold 0 points, A registered
    first; the leaderboard lists A with rank 1 and B with rank 2. *)
Example leaderboard_orders_tie_by_createdAt :
  map (fun e => (name (ru_user e), ru_rank e, ru_badge e)) (leaderboard dbAB None) =
  [("A"%string, 1, Gold); ("B"%string, 2, Silver)].
Proof. reflexivity. Qed.

(** * Rank of a participant *)

(** C5: for an active participant P the position route replies with the rank
    1 + the number of active participants whose [totalPoints] is strictly
    greater than P's; every active participant with the same [totalPoints]
    as P gets the same rank; and a participant with 0 points gets rank 1
    when no active participant holds more than 0 points, as in the scenario
    of A and B. *)
Theorem position_competition_rank (db : Db) (uid : ObjectId) (user : User) :
  findById u_id (users db) uid = Some user ->
  isActive user = true ->
  rankReply db uid =
    Some (1 + Z.of_nat (length (filter
            (fun u => isActive u && (totalPoints user <? totalPoints u))
            (users db)))) /\
  (forall uid' user',
     findById u_id (users db) uid' = Some user' ->
     isActive user' = true ->
     totalPoints user' = totalPoints user ->
     rankReply db uid' = rankReply db uid) /\
  (totalPoints user = 0 ->
   (forall u, In u (users db) -> isActive u = true -> totalPoints u <= 0) ->
   rankReply db uid = Some 1).
Proof.
  intros Hu Ha. destruct (position_active db uid user Hu Ha) as [Hr _].
  split; [|split].
  - rewrite Hr. unfold rankOf, countDocuments. f_equal. lia.
  - intros uid' user' Hu' Ha' Heq.
    destruct (position_active db uid' user' Hu' Ha') as [Hr' _].
    rewrite Hr, Hr'. unfold rankOf. now rewrite Heq.
  - intros Hz Hall. rewrite Hr. unfold rankOf, countDocuments.
    rewrite filter_none; [reflexivity|].
    intros u Hin. destruct (isActive u) eqn:Hau; [|reflexivity].
    simpl. apply Z.ltb_ge. rewrite Hz. now apply Hall.
Qed.

Lemma position_competition_rank_witness :
  rankReply dbAB 1 = Some 1 /\ rankReply dbAB 2 = rankReply dbAB 1.
Proof.
  destruct (position_competition_rank dbAB 1 (newUser 1 "A" 10) eq_refl eq_refl)
    as (_ & Htie & Hzero).
  split.
  - apply Hzero; [reflexivity|].
    simpl. intros u [<-|[<-|[]]] _; simpl; lia.
  - apply (Htie 2%nat (newUser 2 "B" 20)); reflexivity.
Defined.

(** * Neighbourhood of a participant *)

(** C7, as stated, fails: of five ranked participants the last one, P5 at
    rank 5, gets a context of three entries, the two above and P5 itself;
    the window is cut at the end of the ranking, not moved up to five
    entries.  At the top the window does move down: P1 gets all five. *)
Lemma context_is_cut_at_last_rank :
  length (activeRanking dbFive) = 5%nat /\
  rankReply dbFive 5 = Some 5 /\
  contextIds dbFive 5 = Some [3; 4; 5]%nat /\
  contextIds dbFive 5 <> Some [1; 2; 3; 4; 5]%nat /\
  contextIds dbFive 1 = Some [1; 2; 3; 4; 5]%nat.
Proof. repeat split; try reflexivity. discriminate. Qed.

(** C7, amended: for an active participant P who stands in the
    [totalPoints]-descending, [createdAt]-ascending ordering at the place its
    rank names (place i, counted from 0, with rank = i + 1), the context of
    the position reply is the stretch of at most 5 consecutive entries of
    that ordering that starts 2 places above P, or at the first place when P
    has fewer than 2 above.  It holds P, the 2 participants immediately above
    P (all those above when fewer) and, for rank 3 and beyond, the up to 2
    participants immediately below it.  Near rank 1 the window moves down: it
    is the first 5 entries.  Near the last rank it is cut, not moved up: it
    has min(5, N - start) entries, 3 for the last of N >= 3 participants.
    Every entry carries its place in the ordering as its rank. *)
Theorem context_window_clamped_at_top (db : Db) (uid : ObjectId) (user : User) :
  findById u_id (users db) uid = Some user ->
  isActive user = true ->
  nth_error (activeRanking db) (Z.to_nat (rankOf db user - 1)) = Some user ->
  let ranking := activeRanking db in
  let i := Z.to_nat (rankOf db user - 1) in
  exists ctx,
    contextReply db uid = Some ctx /\
    map cu_user ctx = firstn 5 (skipn (i - 2) ranking) /\
    (forall j, (j < 5)%nat ->
       nth_error (map cu_user ctx) j = nth_error ranking (i - 2 + j)) /\
    nth_error (map cu_user ctx) (Nat.min i 2) = Some user /\
    ((i <= 2)%nat -> map cu_user ctx = firstn 5 ranking) /\
    length ctx = Nat.min 5 (length ranking - (i - 2)) /\
    (forall j e, nth_error ctx j = Some e ->
       cu_rank e = Z.of_nat (i - 2 + j) + 1 /\
       isCurrentUser e = (u_id (cu_user e) =? uid)%nat).
Proof.
  intros Hu Ha Hplace ranking i.
  destruct (position_active db uid user Hu Ha) as [_ Hctx].
  pose proof (rankOf_pos db user) as Hrank.
  eexists. split; [exact Hctx|].
  assert (Hdocs : map cu_user
            (mapIndex (fun u index =>
               mkContextUser u (Z.max 1 (rankOf db user - 2) + index)
                 (getRankBadge (Z.max 1 (rankOf db user - 2) + index))
                 (u_id u =? uid)%nat)
               (contextUsers db (rankOf db user))) =
          firstn 5 (skipn (i - 2) ranking)).
  { unfold mapIndex.
    rewrite mapIndexFrom_map with (h := fun u => u) by reflexivity.
    rewrite map_id. now apply contextUsers_window. }
  split; [exact Hdocs|]. rewrite Hdocs.
  split; [|split; [|split; [|split]]].
  - intros j Hj. rewrite nth_error_firstn, nth_error_skipn.
    apply Nat.ltb_lt in Hj. now rewrite Hj.
  - rewrite nth_error_firstn, nth_error_skipn.
    replace (Nat.min i 2 <? 5)%nat with true by (symmetry; apply Nat.ltb_lt; lia).
    replace (i - 2 + Nat.min i 2)%nat with i by lia. exact Hplace.
  - intros Hi. now replace (i - 2)%nat with 0%nat by lia.
  - unfold mapIndex. rewrite mapIndexFrom_length.
    rewrite contextUsers_window by assumption.
    now rewrite length_firstn, length_skipn.
  - intros j e He. unfold mapIndex in He. rewrite mapIndexFrom_nth in He.
    destruct (nth_error (contextUsers db (rankOf db user)) j) as [u|];
      [|discriminate].
    injection He as <-. simpl. split; [|reflexivity].
    unfold i. lia.
Qed.

Lemma context_window_clamped_at_top_witness :
  exists ctx,
    contextReply dbFive 5 = Some ctx /\
    map cu_user ctx = firstn 5 (skipn 2 (activeRanking dbFive)) /\
    length ctx = 3%nat.
Proof.
  destruct (context_window_clamped_at_top dbFive 5 (userWith 5 "P5" 10 5)
              eq_refl eq_refl eq_refl)
    as (ctx & Hctx & Hdocs & _ & _ & _ & Hlen & _).
  exists ctx. split; [exact Hctx|]. split; [exact Hdocs|exact Hlen].
Defined.

(** With ties the rank of the reply is not the place in the ordering: of six
    participants without points the last registered has rank 1, and the
    context, the first five of the ordering, does not hold that participant. *)
Example context_misses_tied_participant :
  rankReply dbSixTied 6 = Some 1 /\
  contextIds dbSixTied 6 = Some [1; 2; 3; 4; 5]%nat.
Proof. split; reflexivity. Qed.

(** * Windowed leaderboard *)

(** C6, as stated, fails: the pipeline ends in [$limit].  X and Y are both
    active and both hold a valid claim made today; with limit 1 the reply
    lists X alone. *)
Lemma topPeriod_limit_cuts_the_board :
  (forall u, In u (users dbTwoToday) ->
     isActive u = true /\
     exists c, In c (claims dbTwoToday) /\ userId c = u_id u /\
               inWindow (setHoursZero 0 clock, clock) c = true) /\
  getDateRange 0 clock clock "today" = Some (setHoursZero 0 clock, clock) /\
  option_map (map (fun r => u_id (r_user r)))
    (boardRows (topPeriod 0 dbTwoToday "today" (Some 1%positive) clock clock))
  = Some [1%nat].
Proof.
  split; [|split; reflexivity].
  intros u [<-|[<-|[]]]; (split; [reflexivity|]).
  - exists (mkClaim 1 1 5 random true (clock - 1000)).
    repeat split. now left.
  - exists (mkClaim 2 2 3 random true (clock - 500)).
    repeat split. right. now left.
Qed.

(** C6, amended: for a period the route knows (so that [getDateRange] gives a
    window) and a users collection with unique ids, the route replies 200 and
    the rows of its leaderboard are the first [limit] rows (10 by default) of
    the period ranking, which holds exactly one row for each active
    participant with at least one valid claim created inside the window,
    with that participant's windowed point sum and claim count, ordered by
    windowed points descending and then windowed claims descending; the ranks
    are 1, 2, ..., N.  When the limit is not below the number of such
    participants the leaderboard holds them all.  A participant without a
    valid claim inside the window is in no row, whatever the limit, and, when
    active, still stands in the global ordering with the stored totals.  In
    the window of [today], read with a clock that does not run backwards, no
    claim created a day or more (so 8 days) before [now] is inside. *)
Theorem topPeriod_windowed_ranking
    (tza : Z) (db : Db) (period : string) (limit : option positive)
    (now start : Date) (range : Date * Date) :
  uniqueUsers db ->
  getDateRange tza now start period = Some range ->
  let limitNum := match limit with Some n => n | None => 10%positive end in
  exists board,
    topPeriod tza db period limit now start = mkReply 200%nat (Some board) [] /\
    map rr_row (pb_leaderboard board) =
      firstn (Pos.to_nat limitNum) (periodRanking db range) /\
    (forall row, In row (periodRanking db range) <-> windowRow db range row) /\
    NoDup (map (fun r => u_id (r_user r)) (periodRanking db range)) /\
    StronglySorted rowOrder (periodRanking db range) /\
    StronglySorted rowOrder (map rr_row (pb_leaderboard board)) /\
    map rr_rank (pb_leaderboard board) =
      map Z.of_nat (seq 1 (length (pb_leaderboard board))) /\
    ((length (periodRanking db range) <= Pos.to_nat limitNum)%nat ->
     map rr_row (pb_leaderboard board) = periodRanking db range) /\
    (forall u, In u (users db) -> isActive u = true ->
       (forall c, In c (claims db) -> userId c = u_id u ->
                  inWindow range c = false) ->
       ~ In u (map r_user (map rr_row (pb_leaderboard board))) /\
       In u (activeRanking db)) /\
    (period = "today"%string -> now <= start ->
     forall c, c_createdAt c <= now - msPerDay -> inWindow range c = false).
Proof.
  intros Hnd Hrange limitNum. unfold topPeriod. rewrite Hrange. fold limitNum.
  eexists. split; [reflexivity|]. simpl.
  assert (Hrows :
    map rr_row
      (mapIndex (fun row index =>
                   mkRankedRow row (index + 1) (getRankBadge (index + 1)))
                (limitDocs (Z.pos limitNum) (periodRanking db range))) =
    firstn (Pos.to_nat limitNum) (periodRanking db range)).
  { unfold mapIndex.
    rewrite mapIndexFrom_map with (h := fun r => r) by reflexivity.
    apply map_id. }
  rewrite Hrows.
  split; [reflexivity|].
  split; [apply periodRanking_In|].
  split; [now apply periodRanking_NoDup|].
  split; [apply periodRanking_sorted|].
  split; [apply StronglySorted_firstn, periodRanking_sorted|].
  split.
  { unfold mapIndex. rewrite mapIndexFrom_index by reflexivity.
    now rewrite mapIndexFrom_length. }
  split; [apply firstn_all2|].
  split.
  - intros u Hin Ha Hout. split; [|now apply activeRanking_In].
    intros Hrow. apply in_map_iff in Hrow as (row & <- & Hrow).
    apply (limitDocs_In (Z.pos limitNum)), periodRanking_In in Hrow.
    destruct Hrow as (_ & _ & (c & Hc & Hid & Hv & Hw) & _).
    assert (Hin' : inWindow range c = true) by (apply inWindow_spec; tauto).
    rewrite (Hout c Hc Hid) in Hin'. discriminate.
  - intros -> Hclock c Hold. rewrite today_window in Hrange.
    injection Hrange as <-. now apply today_excludes_older.
Qed.

Lemma topPeriod_windowed_ranking_witness :
  exists board,
    topPeriod 0 dbEightDays "today" None clock clock =
      mkReply 200%nat (Some board) [] /\
    map rr_row (pb_leaderboard board) =
      firstn 10 (periodRanking dbEightDays (setHoursZero 0 clock, clock)) /\
    ~ In (mkUser 1 "X" 5 1 true (clock - 8 * msPerDay) 0)
         (map r_user (map rr_row (pb_leaderboard board))) /\
    In (mkUser 1 "X" 5 1 true (clock - 8 * msPerDay) 0) (activeRanking dbEightDays).
Proof.
  destruct (topPeriod_windowed_ranking 0 dbEightDays "today" None clock clock
              (setHoursZero 0 clock, clock))
    as (board & Hreply & Hrows & _ & _ & _ & _ & _ & _ & Hout & Htoday).
  - repeat constructor. simpl. tauto.
  - reflexivity.
  - exists board. split; [exact Hreply|]. split; [exact Hrows|].
    apply Hout.
    + now left.
    + reflexivity.
    + intros c [<-|[]] _. apply Htoday; [reflexivity|lia|].
      simpl. unfold msPerDay. lia.
Defined.

(** The scenario on the code: the claim made 8 days ago is outside the
    window of [today], the windowed leaderboard is empty, and the global
    leaderboard lists X at rank 1 with the 5 points and the 1 claim. *)
Example eight_days_old_claim_scenario :
  boardRows (topPeriod 0 dbEightDays "today" None clock clock) = Some [] /\
  map (fun e => (u_id (ru_user e), totalPoints (ru_user e),
                 claimsCount (ru_user e), ru_rank e))
      (leaderboard dbEightDays None) = [(1%nat, 5, 1, 1)].
Proof. split; reflexivity. Qed.

(** The other windows, on the clock of the scenarios and in UTC: [week]
    starts 7 days before, [month] on the same day of the month before,
    [year] on the same day of the year before; a day that the month before
    does not have carries over (from 2023-03-31 the month window starts on
    2023-03-03); an unknown period has no window and the route replies 400. *)
Example getDateRange_windows :
  getDateRange 0 clock clock "week" = Some (clock - 7 * msPerDay, clock) /\
  getDateRange 0 clock clock "month" = Some (clock - 31 * msPerDay, clock) /\
  getDateRange 0 clock clock "year" = Some (clock - 366 * msPerDay, clock) /\
  getDateRange 0 1680256800000 1680256800000 "month" =
    Some (1677837600000, 1680256800000) /\
  getDateRange 0 clock clock "decade" = None /\
  status (topPeriod 0 dbTwoToday "decade" None clock clock) = 400%nat.
Proof. repeat split; reflexivity. Qed.

(** * Further properties of the routes and models *)

(** ** Updating by id and finding by id *)

Section UpdateThenFind.
Context {T : Type}.
Variable key : T -> ObjectId.
Variable f : T -> T.
Hypothesis f_key : forall d, key (f d) = key d.

Lemma findById_update_same (l : list T) (id : ObjectId) :
  findById key (findByIdAndUpdate key l id f) id = option_map f (findById key l id).
Proof.
  induction l as [|d l IH]; simpl; [reflexivity|].
  destruct (key d =? id)%nat eqn:E; simpl.
  - now rewrite f_key, E.
  - now rewrite E.
Qed.

Lemma findById_update_other (l : list T) (id id' : ObjectId) :
  id' <> id ->
  findById key (findByIdAndUpdate key l id f) id' = findById key l id'.
Proof.
  intros Hne. induction l as [|d l IH]; simpl; [reflexivity|].
  destruct (Nat.eqb_spec (key d) id) as [E|E]; simpl.
  - rewrite f_key. destruct (Nat.eqb_spec (key d) id'); [congruence|reflexivity].
  - now rewrite IH.
Qed.

Lemma Forall_update (P : T -> Prop) (l : list T) (id : ObjectId) :
  (forall d, P d -> P (f d)) -> Forall P l ->
  Forall P (findByIdAndUpdate key l id f).
Proof.
  intros Hf. induction 1 as [|d l Hd Hl IH]; simpl; [constructor|].
  destruct (key d =? id)%nat; constructor; auto.
Qed.
End UpdateThenFind.

Lemma findById_known {T : Type} (key : T -> ObjectId) (l : list T) (id : ObjectId) :
  findById key l id <> None <-> In id (map key l).
Proof.
  induction l as [|d l IH]; simpl; [tauto|].
  destruct (Nat.eqb_spec (key d) id) as [E|E].
  - split; [auto|discriminate].
  - rewrite IH. tauto.
Qed.

(** ** What a request does to the two collections *)

Lemma deactivateUser_inv (db : Db) (id : ObjectId) :
  claims (fst (deactivateUser db id)) = claims db /\
  users (fst (deactivateUser db id)) =
    findByIdAndUpdate u_id (users db) id setInactive.
Proof.
  unfold deactivateUser.
  destruct (findById u_id (users db) id) as [user|] eqn:Hu; simpl; [auto|].
  split; [reflexivity|].
  induction (users db) as [|u l IH]; simpl in *; [reflexivity|].
  destruct (u_id u =? id)%nat; [discriminate|]. now rewrite <- IH.
Qed.

Lemma applyOp_user_ids (db : Db) (o : Op) :
  map u_id (users (applyOp db o)) = map u_id (users db).
Proof.
  destruct o as [r|id]; simpl; [apply handle_user_ids|].
  destruct (deactivateUser_inv db id) as [_ ->].
  now apply findByIdAndUpdate_keys.
Qed.

Lemma runOps_user_ids (os : list Op) (db : Db) :
  map u_id (users (runOps db os)) = map u_id (users db).
Proof.
  revert db. induction os as [|o os IH]; intros db; simpl; [reflexivity|].
  now rewrite IH, applyOp_user_ids.
Qed.

(** The ledger after a request: as before, or with one claim marked
    invalid, or with one new valid claim, for a stored user, at its end. *)
Lemma applyOp_claims (db : Db) (o : Op) :
  claims (applyOp db o) = claims db \/
  (exists id, claims (applyOp db o) =
              findByIdAndUpdate c_id (claims db) id setInvalid) \/
  (exists b env p,
     findById u_id (users db) (b_userId b) <> None /\
     1 <= p <= 10 /\
     claims (applyOp db o) = claims db ++ [claimOfBody db b env p]).
Proof.
  destruct o as [[b env|id ok]|id]; simpl.
  - destruct (postClaim_inv db b env) as [(-> & _)|(user & p & Hu & _ & Hp & ->)];
      [now left|].
    right. right. exists b, env, p. rewrite Hu.
    split; [discriminate|]. split; [assumption|].
    now destruct (userUpdateOk env).
  - destruct (deleteClaim_inv db id ok) as [(_ & ->)|(c & _ & -> & _)];
      [now left|].
    right. left. now exists id.
  - left. apply deactivateUser_inv.
Qed.

Lemma newObjectId_fresh (l : list Claim) : ~ In (newObjectId l) (map c_id l).
Proof.
  assert (H : forall c, In c l -> (c_id c < newObjectId l)%nat).
  { unfold newObjectId. induction l as [|d l IH]; simpl; [tauto|].
    intros c [<-|Hc]; [lia|]. specialize (IH c Hc). lia. }
  intros Hin. apply in_map_iff in Hin as (c & Hid & Hc).
  specialize (H c Hc). lia.
Qed.

(** ** Invariants of the ledger *)


Lemma applyOp_pointsInRange (db : Db) (o : Op) :
  pointsInRange db -> pointsInRange (applyOp db o).
Proof.
  unfold pointsInRange. intros Hr.
  destruct (applyOp_claims db o) as [->|[(id & ->)|(b & env & p & _ & Hp & ->)]].
  - assumption.
  - apply Forall_update; auto.
  - apply Forall_app. split; [assumption|]. repeat constructor; simpl; lia.
Qed.

Lemma applyOp_ownersExist (db : Db) (o : Op) :
  ownersExist db -> ownersExist (applyOp db o).
Proof.
  unfold ownersExist. intros Ho.
  assert (Hk : forall c, findById u_id (users (applyOp db o)) (userId c) <> None <->
                         findById u_id (users db) (userId c) <> None).
  { intros c. now rewrite !findById_known, applyOp_user_ids. }
  rewrite Forall_forall in *.
  destruct (applyOp_claims db o) as [->|[(id & ->)|(b & env & p & Hu & _ & ->)]].
  - intros c Hc. apply Hk. auto.
  - rewrite <- Forall_forall. apply Forall_update.
    + intros d Hd. apply Hk. apply Hk in Hd. exact Hd.
    + rewrite Forall_forall. intros c Hc. apply Hk. auto.
  - intros c Hc. apply Hk. apply in_app_or in Hc as [Hc|[<-|[]]]; auto.
Qed.



(** X2: stored points stay within 1 to 10.  Whatever the request bodies and
    the random draws, a ledger whose claims all carry between 1 and 10 points
    is still such a ledger after any sequence of requests. *)
Theorem runOps_pointsInRange (db : Db) (os : list Op) :
  pointsInRange db -> pointsInRange (runOps db os).
Proof.
  revert db. induction os as [|o os IH]; intros db H; simpl;
    auto using applyOp_pointsInRange.
Qed.

Lemma runOps_pointsInRange_witness : pointsInRange (runOps dbX mixedOps).
Proof. apply runOps_pointsInRange. constructor. Defined.

(** X3: claims keep their owner.  When every stored claim names a stored
    user, this is still so after any sequence of requests, and then an
    invalidation whose user update is not rejected replies 200 when the claim
    exists and 404 when it does not: the reply 500 for a claim without owner
    is out of reach. *)
Theorem runOps_ownersExist (db : Db) (os : list Op) :
  ownersExist db ->
  ownersExist (runOps db os) /\
  forall id,
    status (snd (deleteClaim (runOps db os) id true)) =
    match findById c_id (claims (runOps db os)) id with
    | Some _ => 200%nat
    | None => 404%nat
    end.
Proof.
  intros H.
  assert (Hafter : ownersExist (runOps db os)).
  { revert db H. induction os as [|o os IH]; intros db H; simpl;
      auto using applyOp_ownersExist. }
  split; [assumption|]. intros id. unfold deleteClaim.
  destruct (findById c_id (claims (runOps db os)) id) as [c|] eqn:Hc;
    [|reflexivity].
  apply findById_Some in Hc as [Hin _].
  unfold ownersExist in Hafter. rewrite Forall_forall in Hafter.
  specialize (Hafter c Hin). simpl.
  destruct (findById u_id (users (runOps db os)) (userId c)); [reflexivity|].
  contradiction.
Qed.

Lemma runOps_ownersExist_witness :
  ownersExist (runOps dbX mixedOps) /\
  status (snd (deleteClaim (runOps dbX mixedOps) 2 true)) = 200%nat.
Proof.
  destruct (runOps_ownersExist dbX mixedOps) as [H1 H2]; [constructor|].
  split; [exact H1|]. exact (H2 2%nat).
Defined.

(** ** The ledger only grows *)

Lemma laterVersion_refl (c : Claim) : laterVersion c c.
Proof. split; auto. Qed.

Lemma laterVersion_trans (c1 c2 c3 : Claim) :
  laterVersion c1 c2 -> laterVersion c2 c3 -> laterVersion c1 c3.
Proof. unfold laterVersion. intros [H1 H2] [H3 H4]. split; [congruence|auto]. Qed.

Lemma Forall2_laterVersion_refl (l : list Claim) : Forall2 laterVersion l l.
Proof. induction l; constructor; auto using laterVersion_refl. Qed.

Lemma Forall2_laterVersion_trans (l1 l2 l3 : list Claim) :
  Forall2 laterVersion l1 l2 -> Forall2 laterVersion l2 l3 ->
  Forall2 laterVersion l1 l3.
Proof.
  intros H. revert l3. induction H as [|c1 c2 l1 l2 Hc _ IH]; intros l3 H23.
  - inversion H23. constructor.
  - inversion H23 as [|? c3 ? l3' Hc' H23']; subst.
    constructor; eauto using laterVersion_trans.
Qed.

Lemma invalidate_laterVersion (l : list Claim) (id : ObjectId) :
  Forall2 laterVersion l (findByIdAndUpdate c_id l id setInvalid).
Proof.
  induction l as [|c l IH]; simpl; [constructor|].
  destruct (c_id c =? id)%nat; constructor;
    auto using laterVersion_refl, Forall2_laterVersion_refl.
  split; [reflexivity|discriminate].
Qed.

Lemma applyOp_grows (db : Db) (o : Op) :
  exists old new,
    claims (applyOp db o) = old ++ new /\ Forall2 laterVersion (claims db) old.
Proof.
  destruct (applyOp_claims db o) as [->|[(id & ->)|(b & env & p & _ & _ & ->)]].
  - exists (claims db), []. rewrite app_nil_r.
    auto using Forall2_laterVersion_refl.
  - exists (findByIdAndUpdate c_id (claims db) id setInvalid), [].
    rewrite app_nil_r. auto using invalidate_laterVersion.
  - exists (claims db), [claimOfBody db b env p].
    auto using Forall2_laterVersion_refl.
Qed.

(** X4: the ledger is append-only.  After any sequence of requests the
    claims collection is the old one, claim for claim and in the same order,
    followed by the new claims; an old claim keeps its id, owner, points,
    type and creation time, and is valid afterwards only if it was valid
    before: no claim is removed, rewritten or made valid again. *)
Theorem runOps_ledger_grows (db : Db) (os : list Op) :
  exists old new,
    claims (runOps db os) = old ++ new /\ Forall2 laterVersion (claims db) old.
Proof.
  revert db. induction os as [|o os IH]; intros db; simpl.
  - exists (claims db), []. rewrite app_nil_r.
    auto using Forall2_laterVersion_refl.
  - destruct (applyOp_grows db o) as (old1 & new1 & H1 & HR1).
    destruct (IH (applyOp db o)) as (old2 & new2 & H2 & HR2).
    rewrite H1 in HR2. apply Forall2_app_inv_l in HR2 as (o2a & o2b & Ha & Hb & ->).
    exists o2a, (o2b ++ new2). split; [now rewrite H2, app_assoc|].
    eauto using Forall2_laterVersion_trans.
Qed.

(** ** What a submission and an invalidation change, exactly *)

(** X5: a submission that returns a claim, with the aggregate update going
    through, appends exactly that claim to the ledger, valid, under a fresh
    id, for the participant of the body, with 1 to 10 points and the save
    time as [createdAt]; the participant, who was active, gets exactly the
    claim's points and one claim more and the hook's time as [lastActivity];
    every other participant's document is what it was. *)
Theorem postClaim_created_effect
    (db : Db) (b : ClaimBody) (env : SaveEnv) (claim : Claim) :
  payload (snd (postClaim db b env)) = Some claim ->
  userUpdateOk env = true ->
  claims (fst (postClaim db b env)) = claims db ++ [claim] /\
  ~ In (c_id claim) (map c_id (claims db)) /\
  isValid claim = true /\
  userId claim = b_userId b /\
  1 <= points claim <= 10 /\
  c_createdAt claim = savedAt env /\
  (exists user,
     findById u_id (users db) (b_userId b) = Some user /\
     isActive user = true /\
     findById u_id (users (fst (postClaim db b env))) (b_userId b) =
     Some (mkUser (u_id user) (name user) (totalPoints user + points claim)
                  (claimsCount user + 1) true (hookAt env) (u_createdAt user))) /\
  (forall uid, uid <> b_userId b ->
     findById u_id (users (fst (postClaim db b env))) uid =
     findById u_id (users db) uid).
Proof.
  intros Hpay Hok.
  destruct (postClaim_inv db b env) as [(_ & Hnone & _)|(user & p & Hu & Ha & Hp & Heq)].
  { rewrite Hnone in Hpay. discriminate. }
  rewrite Heq in *. rewrite Hok in *. simpl in *. injection Hpay as <-.
  split; [reflexivity|]. split; [apply newObjectId_fresh|].
  repeat (split; [reflexivity || assumption|]).
  split.
  - exists user. split; [assumption|]. split; [assumption|].
    rewrite findById_update_same by reflexivity. rewrite Hu. simpl.
    unfold setLastActivity, incUser. simpl. now rewrite Ha.
  - intros uid Hne. now apply findById_update_other.
Qed.

Lemma postClaim_created_effect_witness :
  claims (fst (postClaim dbX (mkBody 1 (Some 5) None) (mkSaveEnv 0 100 101 true))) =
  claims dbX ++ [mkClaim 1 1 5 random true 100].
Proof.
  apply (postClaim_created_effect dbX (mkBody 1 (Some 5) None)
           (mkSaveEnv 0 100 101 true) (mkClaim 1 1 5 random true 100));
    reflexivity.
Defined.

(** X6: an invalidation of a stored claim whose owner is stored, with the
    user update going through, replies 200 with the claim marked invalid;
    the claim stays in the ledger under its id, marked invalid, and no other
    claim changes; the owner loses the claim's points and one claim, whether
    the claim was still valid or not, and no other participant changes. *)
Theorem deleteClaim_effect (db : Db) (id : ObjectId) (c : Claim) (owner : User) :
  findById c_id (claims db) id = Some c ->
  findById u_id (users db) (userId c) = Some owner ->
  snd (deleteClaim db id true) = mkReply 200%nat (Some (setInvalid c)) [] /\
  findById c_id (claims (fst (deleteClaim db id true))) id = Some (setInvalid c) /\
  (forall id', id' <> id ->
     findById c_id (claims (fst (deleteClaim db id true))) id' =
     findById c_id (claims db) id') /\
  map claimCore (claims (fst (deleteClaim db id true))) = map claimCore (claims db) /\
  findById u_id (users (fst (deleteClaim db id true))) (userId c) =
    Some (incUser (- points c) (-1) owner) /\
  (forall uid, uid <> userId c ->
     findById u_id (users (fst (deleteClaim db id true))) uid =
     findById u_id (users db) uid).
Proof.
  intros Hc Ho. unfold deleteClaim. rewrite Hc. simpl. rewrite Ho. simpl.
  split; [reflexivity|].
  split; [rewrite findById_update_same by reflexivity; now rewrite Hc|].
  split; [intros id' Hne; now apply findById_update_other|].
  split.
  { clear. induction (claims db) as [|d l IH]; simpl; [reflexivity|].
    destruct (c_id d =? id)%nat; simpl; [reflexivity|now rewrite IH]. }
  split; [rewrite findById_update_same by reflexivity; now rewrite Ho|].
  intros uid Hne. now apply findById_update_other.
Qed.

Lemma deleteClaim_effect_witness :
  findById u_id (users (fst (deleteClaim driftedHigh 1 true))) 1 =
  Some (mkUser 1 "X" 2 (-1) true 0 0).
Proof.
  destruct (deleteClaim_effect driftedHigh 1 (mkClaim 1 1 5 random true 100)
              (mkUser 1 "X" 7 0 true 0 0) eq_refl eq_refl)
    as (_ & _ & _ & _ & H & _).
  exact H.
Defined.

(** ** The points of a submission *)

(** X7: for an active participant, a body with explicit points between 1 and
    10 is stored with those points whatever the claim type and the random
    draw; a body without points and of type [random] (or without type) is
    stored with the draw plus one, when the draw is a digit 0 to 9; a body
    without points of type [bonus] or [manual] passes validation and then
    fails at the save with 500, nothing written; explicit points outside 1 to
    10 are refused with 400, nothing written. *)
Theorem postClaim_points (db : Db) (b : ClaimBody) (env : SaveEnv) (user : User) :
  findById u_id (users db) (b_userId b) = Some user ->
  isActive user = true ->
  (forall p, b_points b = Some p -> 1 <= p <= 10 ->
     snd (postClaim db b env) =
     mkReply 201%nat (Some (claimOfBody db b env p))
       (if userUpdateOk env then [] else ["Error updating user points:"%string])) /\
  (b_points b = None -> b_claimType b <> Some bonus -> b_claimType b <> Some manual ->
   0 <= randomDraw env <= 9 ->
     snd (postClaim db b env) =
     mkReply 201%nat (Some (claimOfBody db b env (randomDraw env + 1)))
       (if userUpdateOk env then [] else ["Error updating user points:"%string])) /\
  (b_points b = None -> b_claimType b = Some bonus \/ b_claimType b = Some manual ->
     postClaim db b env =
     (db, mkReply 500%nat None ["Error creating claim:"%string])) /\
  (forall p, b_points b = Some p -> p < 1 \/ 10 < p ->
     postClaim db b env = (db, mkReply 400%nat None [])).
Proof.
  intros Hu Ha. unfold postClaim, validateClaim. rewrite Hu, Ha. simpl.
  split; [|split; [|split]].
  - intros p Hp Hr. rewrite Hp.
    replace ((1 <=? p) && (p <=? 10)) with true by (symmetry; apply andb_true_iff; lia).
    simpl.
    assert (Hpre : preSave (claimPoints (match b_claimType b with
                                         | Some t => t | None => random end)
                                        (Some p) env) = Some p).
    { assert (Hnz : (p =? 0) = false) by lia.
      assert (Hlo : (p <? 1) = false) by lia.
      assert (Hhi : (10 <? p) = false) by lia.
      destruct (b_claimType b) as [[| |]|]; simpl; rewrite ?Hnz; simpl;
        now rewrite Hlo, Hhi. }
    rewrite Hpre. unfold postSave, claimOfBody. simpl.
    now destruct (userUpdateOk env).
  - intros Hp Hb Hm Hd. rewrite Hp. simpl.
    assert (Hty : match b_claimType b with Some t => t | None => random end = random).
    { destruct (b_claimType b) as [[| |]|]; congruence. }
    rewrite Hty. simpl.
    assert (Hlo : (randomDraw env + 1 <? 1) = false) by lia.
    assert (Hhi : (10 <? randomDraw env + 1) = false) by lia.
    rewrite Hlo, Hhi. unfold postSave, claimOfBody. simpl. rewrite Hty.
    now destruct (userUpdateOk env).
  - intros Hp [Hb|Hm]; rewrite Hp; [rewrite Hb|rewrite Hm]; reflexivity.
  - intros p Hp Hr. rewrite Hp.
    replace ((1 <=? p) && (p <=? 10)) with false; [reflexivity|].
    symmetry. apply andb_false_iff. lia.
Qed.

Lemma postClaim_points_witness :
  postClaim dbX (mkBody 1 None (Some bonus)) (mkSaveEnv 3 100 100 true) =
  (dbX, mkReply 500%nat None ["Error creating claim:"%string]).
Proof.
  destruct (postClaim_points dbX (mkBody 1 None (Some bonus))
              (mkSaveEnv 3 100 100 true) (newUser 1 "X" 0) eq_refl eq_refl)
    as (_ & _ & H & _).
  apply H; [reflexivity|now left].
Defined.

(** ** Claim histories *)

Lemma byCreatedDesc_sorted (l : list Claim) :
  StronglySorted newestFirst (sortDocs byCreatedDesc l).
Proof.
  apply sortDocs_sorted; unfold byCreatedDesc, newestFirst; intros; lia.
Qed.

Lemma limitDocs_length {T : Type} (n : positive) (l : list T) :
  length (limitDocs (Z.pos n) l) = Nat.min (Pos.to_nat n) (length l).
Proof. unfold limitDocs. apply length_firstn. Qed.

Lemma getUserClaimHistory_In (db : Db) (uid : ObjectId) (limit : positive) (c : Claim) :
  In c (getUserClaimHistory db uid limit) ->
  In c (claims db) /\ userId c = uid /\ isValid c = true.
Proof.
  unfold getUserClaimHistory. intros H. apply limitDocs_In in H.
  apply sortDocs_In, filter_In in H as [Hin H].
  apply andb_prop in H as [H1 H2]. apply Nat.eqb_eq in H1. auto.
Qed.

Lemma getRecentClaims_In (db : Db) (limit : positive) (c : Claim) :
  In c (getRecentClaims db limit) -> In c (claims db) /\ isValid c = true.
Proof.
  unfold getRecentClaims. intros H. apply limitDocs_In in H.
  now apply sortDocs_In, filter_In in H.
Qed.

(** X8: the history route replies 404 only for an unknown user; for a stored
    user, active or not, it replies with claims of the ledger that are valid
    and owned by that user, newest first, as many as the limit (50 by
    default) or, when fewer, all the valid claims of the user. *)
Theorem userClaims_history (db : Db) (uid : ObjectId) (limit : option positive)
    (user : User) :
  findById u_id (users db) uid = Some user ->
  let limitNum := match limit with Some n => n | None => 50%positive end in
  exists history,
    userClaims db uid limit =
      mkReply 200%nat (Some (mkHistoryBody user history)) [] /\
    (forall c, In c history ->
       In c (claims db) /\ userId c = uid /\ isValid c = true) /\
    StronglySorted newestFirst history /\
    length history =
      Nat.min (Pos.to_nat limitNum)
              (length (filter (validClaimOf uid) (claims db))) /\
    ((length (filter (validClaimOf uid) (claims db)) <= Pos.to_nat limitNum)%nat ->
     forall c, In c (claims db) -> userId c = uid -> isValid c = true ->
               In c history).
Proof.
  intros Hu limitNum. unfold userClaims. rewrite Hu. fold limitNum.
  eexists. split; [reflexivity|].
  assert (Hsame : filter (fun c => (userId c =? uid)%nat && isValid c) (claims db) =
                  filter (validClaimOf uid) (claims db)).
  { apply filter_ext. intros c. unfold validClaimOf. apply andb_comm. }
  split; [apply getUserClaimHistory_In|].
  split; [apply StronglySorted_firstn, byCreatedDesc_sorted|].
  split.
  - unfold getUserClaimHistory. rewrite limitDocs_length.
    rewrite (Permutation_length (sortDocs_perm _ _)). now rewrite Hsame.
  - intros Hlen c Hin Hid Hv. unfold getUserClaimHistory, limitDocs.
    rewrite firstn_all2.
    + apply sortDocs_In, filter_In. split; [assumption|].
      rewrite Hv, andb_true_r. now apply Nat.eqb_eq.
    + rewrite (Permutation_length (sortDocs_perm _ _)), Hsame. simpl. lia.
Qed.

Lemma userClaims_history_witness :
  exists history,
    userClaims (runOps dbX mixedOps) 1 None =
      mkReply 200%nat (Some (mkHistoryBody (mkUser 1 "X" 5 2 false 300 0) history)) [] /\
    length history = 2%nat.
Proof.
  destruct (userClaims_history (runOps dbX mixedOps) 1 None
              (mkUser 1 "X" 5 2 false 300 0) eq_refl)
    as (history & Hreply & _ & _ & Hlen & _).
  exists history. split; [exact Hreply|exact Hlen].
Defined.

Lemma invalidated_not_valid (db : Db) (id : ObjectId) (ok : bool) (c : Claim) :
  uniqueClaims db ->
  In c (claims (fst (deleteClaim db id ok))) -> c_id c = id -> isValid c = false.
Proof.
  intros Hnd Hin Hid.
  destruct (deleteClaim_inv db id ok) as [(Hnone & Heq)|(c0 & _ & Hcl & _)].
  - rewrite Heq in Hin. simpl in Hin.
    exfalso. exact (findById_None _ _ _ Hnone c Hin Hid).
  - rewrite Hcl in Hin.
    rewrite findByIdAndUpdate_map in Hin by (assumption || reflexivity).
    apply in_map_iff in Hin as (d & Hd & _).
    destruct (Nat.eqb_spec (c_id d) id) as [E|E]; subst c; [reflexivity|].
    contradiction.
Qed.

(** X9: an invalidated claim is gone from every listing.  In a ledger with
    unique claim ids, after DELETE /api/claims/:id, whether or not the user
    update went through, no claim with that id is in any participant's
    history or in the recent claims, whatever the limit. *)
Theorem deleteClaim_hides_claim (db : Db) (id : ObjectId) (ok : bool) :
  uniqueClaims db ->
  (forall uid limit c,
     In c (getUserClaimHistory (fst (deleteClaim db id ok)) uid limit) ->
     c_id c <> id) /\
  (forall limit c,
     In c (getRecentClaims (fst (deleteClaim db id ok)) limit) -> c_id c <> id).
Proof.
  intros Hnd. split.
  - intros uid limit c Hin Hid.
    apply getUserClaimHistory_In in Hin as (Hin & _ & Hv).
    rewrite (invalidated_not_valid db id ok c Hnd Hin Hid) in Hv. discriminate.
  - intros limit c Hin Hid.
    apply getRecentClaims_In in Hin as (Hin & Hv).
    rewrite (invalidated_not_valid db id ok c Hnd Hin Hid) in Hv. discriminate.
Qed.

Lemma deleteClaim_hides_claim_witness :
  ~ In 1%nat
      (map c_id (getRecentClaims (fst (deleteClaim (run dbX threeClaims) 1 true)) 20)).
Proof.
  destruct (deleteClaim_hides_claim (run dbX threeClaims) 1 true) as [_ H].
  - unfold uniqueClaims. vm_compute.
    repeat (constructor; [simpl; intuition lia|]). constructor.
  - intros Hin. apply in_map_iff in Hin as (c & Hid & Hc).
    exact (H 20%positive c Hc Hid).
Defined.

Lemma sortDocs_newest_last (l : list Claim) (x : Claim) :
  (forall y, In y l -> c_createdAt y < c_createdAt x) ->
  sortDocs byCreatedDesc (l ++ [x]) = x :: sortDocs byCreatedDesc l.
Proof.
  unfold sortDocs. intros Hnew. rewrite fold_right_app. simpl.
  induction l as [|y l IH]; simpl; [reflexivity|].
  rewrite IH by (intros z Hz; apply Hnew; now right). simpl.
  unfold byCreatedDesc at 1.
  replace (c_createdAt x <=? c_createdAt y) with false; [reflexivity|].
  symmetry. apply Z.leb_gt. apply Hnew. now left.
Qed.

(** X10: a new claim heads the listings.  When a submission returns a claim
    saved at a time later than the creation time of every stored claim, that
    claim is the first of the recent claims and the first of its owner's
    history, for every limit. *)
Theorem postClaim_heads_listings
    (db : Db) (b : ClaimBody) (env : SaveEnv) (claim : Claim) :
  payload (snd (postClaim db b env)) = Some claim ->
  (forall c, In c (claims db) -> c_createdAt c < savedAt env) ->
  forall limit,
    hd_error (getRecentClaims (fst (postClaim db b env)) limit) = Some claim /\
    hd_error (getUserClaimHistory (fst (postClaim db b env)) (b_userId b) limit) =
      Some claim.
Proof.
  intros Hpay Hnew limit.
  destruct (postClaim_inv db b env) as [(_ & Hnone & _)|(user & p & _ & _ & _ & Heq)].
  { rewrite Hnone in Hpay. discriminate. }
  rewrite Heq in Hpay. simpl in Hpay. injection Hpay as <-.
  assert (Hcl : claims (fst (postClaim db b env)) =
                claims db ++ [claimOfBody db b env p]).
  { rewrite Heq. now destruct (userUpdateOk env). }
  unfold getRecentClaims, getUserClaimHistory, limitDocs. rewrite Hcl.
  rewrite !filter_app. simpl. rewrite Nat.eqb_refl. simpl.
  destruct (Pos2Nat.is_succ limit) as [n ->].
  split.
  - rewrite sortDocs_newest_last; [reflexivity|].
    intros y Hy. apply filter_In in Hy as [Hy _]. now apply Hnew.
  - rewrite sortDocs_newest_last; [reflexivity|].
    intros y Hy. apply filter_In in Hy as [Hy _]. now apply Hnew.
Qed.

Lemma postClaim_heads_listings_witness :
  hd_error (getRecentClaims
              (fst (postClaim (run dbX threeClaims) (mkBody 1 (Some 7) None)
                      (mkSaveEnv 0 400 400 true))) 20) =
  Some (mkClaim 4 1 7 random true 400).
Proof.
  apply (postClaim_heads_listings (run dbX threeClaims) (mkBody 1 (Some 7) None)
           (mkSaveEnv 0 400 400 true) (mkClaim 4 1 7 random true 400) eq_refl).
  simpl. intros c [<-|[<-|[<-|[]]]]; simpl; lia.
Defined.

(** ** Deactivation *)

Lemma deactivated_inactive (db : Db) (id : ObjectId) (u : User) :
  uniqueUsers db ->
  In u (users (fst (deactivateUser db id))) -> u_id u = id -> isActive u = false.
Proof.
  intros Hnd Hin Hid. destruct (deactivateUser_inv db id) as [_ Hus].
  rewrite Hus in Hin.
  rewrite findByIdAndUpdate_map in Hin by (assumption || reflexivity).
  apply in_map_iff in Hin as (d & Hd & _).
  destruct (Nat.eqb_spec (u_id d) id) as [E|E]; subst u; [reflexivity|].
  contradiction.
Qed.

Lemma deactivateUser_db (db : Db) (id : ObjectId) :
  fst (deactivateUser db id) =
  mkDb (findByIdAndUpdate u_id (users db) id setInactive) (claims db).
Proof.
  destruct (deactivateUser_inv db id) as [Hcl Hus].
  destruct (fst (deactivateUser db id)) as [us cl]. simpl in *. now subst.
Qed.

(** X11: a deactivated participant is out of every ranking and keeps the
    history.  With unique user ids, after DELETE /api/users/:id for a stored
    user: the position route replies 404 for that user; no entry of the
    global leaderboard and no row of a period ranking is that user, whatever
    the limit and the window; a submission for that user is refused and
    writes nothing; the ledger is untouched, the stored totals are what they
    were, and the history route still serves the same claims. *)
Theorem deactivateUser_excludes (db : Db) (id : ObjectId) (user : User) :
  uniqueUsers db ->
  findById u_id (users db) id = Some user ->
  let db' := fst (deactivateUser db id) in
  snd (deactivateUser db id) = mkReply 200%nat (Some (setInactive user)) [] /\
  position db' id = mkReply 404%nat None [] /\
  (forall limit e, In e (leaderboard db' limit) -> u_id (ru_user e) <> id) /\
  (forall range row, In row (periodRanking db' range) -> u_id (r_user row) <> id) /\
  (forall b env, b_userId b = id ->
     fst (postClaim db' b env) = db' /\ payload (snd (postClaim db' b env)) = None) /\
  claims db' = claims db /\
  aggregateOf db' id = aggregateOf db id /\
  (forall limit,
     userClaims db' id limit =
     mkReply 200%nat
       (Some (mkHistoryBody (setInactive user)
                (getUserClaimHistory db id
                   (match limit with Some n => n | None => 50%positive end)))) []).
Proof.
  intros Hnd Hu db'.
  destruct (deactivateUser_inv db id) as [Hcl Hus]. fold db' in Hcl, Hus.
  assert (Hfind : findById u_id (users db') id = Some (setInactive user)).
  { rewrite Hus, findById_update_same by reflexivity. now rewrite Hu. }
  split; [unfold deactivateUser; now rewrite Hu|].
  split; [unfold position; now rewrite Hfind|].
  split.
  { intros limit e He Hid.
    assert (Hin : In (ru_user e) (activeRanking db')).
    { unfold leaderboard, mapIndex in He.
      apply (in_map ru_user) in He.
      rewrite mapIndexFrom_map with (h := fun u => u) in He by reflexivity.
      rewrite map_id in He. now apply limitDocs_In in He. }
    apply activeRanking_In in Hin as [Hin Ha].
    rewrite (deactivated_inactive db id _ Hnd Hin Hid) in Ha. discriminate. }
  split.
  { intros range row Hrow Hid.
    apply periodRanking_In in Hrow as (Hin & Ha & _).
    rewrite (deactivated_inactive db id _ Hnd Hin Hid) in Ha. discriminate. }
  split.
  { intros b env Hb. unfold postClaim. rewrite Hb, Hfind. simpl.
    now destruct (validateClaim b). }
  split; [assumption|].
  split; [unfold aggregateOf; now rewrite Hfind, Hu|].
  intros limit. unfold userClaims, getUserClaimHistory. now rewrite Hfind, Hcl.
Qed.

Lemma deactivateUser_excludes_witness :
  position (fst (deactivateUser dbFive 3)) 3 = mkReply 404%nat None [].
Proof.
  destruct (deactivateUser_excludes dbFive 3 (userWith 3 "P3" 30 3)) as (_ & H & _).
  - unfold uniqueUsers. simpl.
    repeat (constructor; [simpl; intuition lia|]). constructor.
  - reflexivity.
  - exact H.
Defined.

Section CountAfterUpdate.
Variable f : User -> User.
Variables q q' : User -> bool.

Lemma filter_update_le (l : list User) (id : ObjectId) :
  (forall d, q' d = true -> q d = true) ->
  (forall d, q' (f d) = true -> q d = true) ->
  (length (filter q' (findByIdAndUpdate u_id l id f)) <= length (filter q l))%nat.
Proof.
  intros H1 H2. induction l as [|d l IH]; simpl; [lia|].
  destruct (u_id d =? id)%nat; simpl.
  - assert (Hl : (length (filter q' l) <= length (filter q l))%nat).
    { clear IH. induction l as [|e l IHl]; simpl; [lia|].
      destruct (q' e) eqn:E; [rewrite (H1 e E); simpl; lia|].
      destruct (q e); simpl; lia. }
    destruct (q' (f d)) eqn:E; [rewrite (H2 d E); simpl; lia|].
    destruct (q d); simpl; lia.
  - destruct (q' d) eqn:E; [rewrite (H1 d E); simpl; lia|].
    destruct (q d); simpl; lia.
Qed.

Lemma filter_update_step (l : list User) (id : ObjectId) :
  (forall d, q d = true -> q (f d) = true) ->
  (length (filter q l) <= length (filter q (findByIdAndUpdate u_id l id f)) /\
   length (filter q (findByIdAndUpdate u_id l id f)) <= S (length (filter q l)))%nat.
Proof.
  intros H. induction l as [|d l IH]; simpl; [lia|].
  destruct (u_id d =? id)%nat; simpl.
  - destruct (q d) eqn:E; [rewrite (H d E); simpl; lia|].
    destruct (q (f d)); simpl; lia.
  - destruct (q d); simpl; lia.
Qed.
End CountAfterUpdate.

(** X12: deactivating a participant never worsens the rank of anyone: for
    every user document, the rank computed by the position route after the
    deactivation is at most the rank before; and deactivating twice is
    deactivating once. *)
Theorem deactivateUser_ranks (db : Db) (id : ObjectId) (v : User) :
  rankOf (fst (deactivateUser db id)) v <= rankOf db v /\
  fst (deactivateUser (fst (deactivateUser db id)) id) = fst (deactivateUser db id).
Proof.
  split.
  - destruct (deactivateUser_inv db id) as [_ Hus].
    unfold rankOf, countDocuments. rewrite Hus.
    pose proof (filter_update_le setInactive
                  (fun u => isActive u && (totalPoints v <? totalPoints u))
                  (fun u => isActive u && (totalPoints v <? totalPoints u))
                  (users db) id) as H.
    simpl in H. specialize (H (fun d E => E)).
    assert (H' : forall d : User, false = true ->
                 isActive d && (totalPoints v <? totalPoints d) = true)
      by (intros; discriminate).
    specialize (H H'). lia.
  - rewrite !deactivateUser_db. simpl. f_equal.
    induction (users db) as [|d l IH]; simpl; [reflexivity|].
    destruct (u_id d =? id)%nat eqn:E; simpl; rewrite E; [reflexivity|].
    now rewrite IH.
Qed.

(** ** Ranks *)

(** X13: claiming never costs the claimant a rank and costs anyone else at
    most one.  After a submission that returns a claim, with the aggregate
    update going through, the rank of the claimant's new document is at most
    the rank of the old one, and for every other total of points the rank
    stays or grows by one. *)
Theorem postClaim_rank_effect
    (db : Db) (b : ClaimBody) (env : SaveEnv) (claim : Claim) (user : User) :
  payload (snd (postClaim db b env)) = Some claim ->
  userUpdateOk env = true ->
  findById u_id (users db) (b_userId b) = Some user ->
  rankOf (fst (postClaim db b env)) (incUser (points claim) 1 user) <= rankOf db user /\
  forall v, rankOf db v <= rankOf (fst (postClaim db b env)) v <= rankOf db v + 1.
Proof.
  intros Hpay Hok Hu.
  destruct (postClaim_inv db b env) as [(_ & Hnone & _)|(user' & p & _ & _ & Hp & Heq)].
  { rewrite Hnone in Hpay. discriminate. }
  rewrite Heq in *. rewrite Hok in *. simpl in *. injection Hpay as <-. simpl.
  unfold rankOf, countDocuments. simpl. split.
  - pose proof (filter_update_le
                  (fun u => setLastActivity (hookAt env) (incUser p 1 u))
                  (fun u => isActive u && (totalPoints user <? totalPoints u))
                  (fun u => isActive u && (totalPoints user + p <? totalPoints u))
                  (users db) (b_userId b)) as H.
    simpl in H.
    assert (H1 : forall d, isActive d && (totalPoints user + p <? totalPoints d) = true ->
                           isActive d && (totalPoints user <? totalPoints d) = true).
    { intros d Hd. apply andb_prop in Hd as [-> Hd]. simpl. lia. }
    assert (H2 : forall d, isActive d && (totalPoints user + p <? totalPoints d + p) = true ->
                           isActive d && (totalPoints user <? totalPoints d) = true).
    { intros d Hd. apply andb_prop in Hd as [-> Hd]. simpl. lia. }
    specialize (H H1 H2). lia.
  - intros v.
    pose proof (filter_update_step
                  (fun u => setLastActivity (hookAt env) (incUser p 1 u))
                  (fun u => isActive u && (totalPoints v <? totalPoints u))
                  (users db) (b_userId b)) as H.
    simpl in H.
    assert (H1 : forall d, isActive d && (totalPoints v <? totalPoints d) = true ->
                           isActive d && (totalPoints v <? totalPoints d + p) = true).
    { intros d Hd. apply andb_prop in Hd as [-> Hd]. simpl. lia. }
    specialize (H H1). lia.
Qed.

Lemma postClaim_rank_effect_witness :
  rankOf (fst (postClaim dbFive (mkBody 5 (Some 10) None) (mkSaveEnv 0 9 9 true)))
         (incUser 10 1 (userWith 5 "P5" 10 5)) <= rankOf dbFive (userWith 5 "P5" 10 5).
Proof.
  apply (postClaim_rank_effect dbFive (mkBody 5 (Some 10) None)
           (mkSaveEnv 0 9 9 true) (mkClaim 1 5 10 random true 9)
           (userWith 5 "P5" 10 5)); reflexivity.
Defined.

Lemma rank_at_most_place (db : Db) (i : nat) (u : User) :
  nth_error (activeRanking db) i = Some u ->
  1 <= rankOf db u <= Z.of_nat i + 1.
Proof.
  intros Hnth. split; [apply rankOf_pos|].
  destruct (nth_error_split _ _ Hnth) as (l1 & l2 & HL & Hlen).
  pose proof (activeRanking_sorted db) as Hs. rewrite HL in Hs.
  destruct (StronglySorted_middle _ _ _ _ Hs) as [_ Hbelow].
  unfold rankOf, countDocuments. rewrite filter_andb.
  rewrite <- (filter_length_perm _ _ _ (activeRanking_perm db)), HL.
  rewrite filter_app. simpl. rewrite Z.ltb_irrefl.
  rewrite (filter_none _ l2).
  - rewrite length_app. simpl.
    pose proof (filter_length_le (fun u0 => totalPoints u <? totalPoints u0) l1).
    lia.
  - intros y Hy. apply Z.ltb_ge. destruct (Hbelow y Hy); lia.
Qed.

Lemma leaderboard_nth (db : Db) (limit : positive) (i : nat) :
  nth_error (leaderboard db (Some limit)) i =
  if (i <? Pos.to_nat limit)%nat
  then option_map (fun u => mkRankedUser u (Z.of_nat i + 1)
                              (getRankBadge (Z.of_nat i + 1)))
                  (nth_error (activeRanking db) i)
  else None.
Proof.
  unfold leaderboard, mapIndex, getTopUsers, limitDocs.
  rewrite mapIndexFrom_nth, nth_error_firstn. simpl.
  now destruct (i <? Pos.to_nat limit)%nat.
Qed.

(** X14: the rank of the position route is never behind the place on the
    leaderboard.  For every entry of the global leaderboard, the rank that
    the position route computes for that user is at least 1 and at most the
    entry's rank; so the first entry has rank 1 in both. *)
Theorem leaderboard_rank_bounds_position_rank
    (db : Db) (limit : option positive) (e : RankedUser) :
  In e (leaderboard db limit) ->
  1 <= rankOf db (ru_user e) <= ru_rank e.
Proof.
  intros He. apply In_nth_error in He as [i Hi].
  assert (Hsome : leaderboard db limit =
                  leaderboard db (Some (match limit with
                                        | Some n => n | None => 10%positive end)))
    by now destruct limit.
  rewrite Hsome, leaderboard_nth in Hi.
  destruct (i <? _)%nat; [|discriminate].
  destruct (nth_error (activeRanking db) i) as [u|] eqn:Hu; [|discriminate].
  injection Hi as <-. simpl. now apply rank_at_most_place.
Qed.

Lemma leaderboard_rank_bounds_position_rank_witness :
  1 <= rankOf dbAB (newUser 2 "B" 20) <= 2.
Proof.
  apply (leaderboard_rank_bounds_position_rank dbAB None
           (mkRankedUser (newUser 2 "B" 20) 2 Silver)).
  simpl. right. now left.
Defined.







(** ** Windowed sums against the totals *)

Lemma sumPoints_cons (c : Claim) (l : list Claim) :
  sumPoints (c :: l) = points c + sumPoints l.
Proof. reflexivity. Qed.

Lemma sumPoints_bounds (l : list Claim) :
  Forall (fun c => 1 <= points c <= 10) l ->
  Z.of_nat (length l) <= sumPoints l <= 10 * Z.of_nat (length l).
Proof.
  induction 1 as [|c l Hc _ IH]; [cbn; lia|].
  rewrite sumPoints_cons. cbn [length]. lia.
Qed.

Lemma narrower_filter_le (q q' : Claim -> bool) (l : list Claim) :
  (forall c, q' c = true -> q c = true) ->
  Forall (fun c => 1 <= points c <= 10) l ->
  sumPoints (filter q' l) <= sumPoints (filter q l) /\
  (length (filter q' l) <= length (filter q l))%nat.
Proof.
  intros Hq. induction 1 as [|c l Hc _ IH]; [cbn; lia|].
  cbn [filter]. destruct (q' c) eqn:E.
  - rewrite (Hq c E), !sumPoints_cons. cbn [length]. lia.
  - destruct (q c); rewrite ?sumPoints_cons; cbn [length]; lia.
Qed.

Lemma windowClaims_filter (db : Db) (range : Date * Date) (uid : ObjectId) :
  windowClaims db range uid =
  filter (fun c => inWindow range c && (userId c =? uid)%nat) (claims db).
Proof. unfold windowClaims. symmetry. apply filter_andb. Qed.

(** X17: a period never shows more than the totals.  When the aggregates
    agree with the ledger and the stored points are within 1 to 10, every row
    of a period ranking has [periodPoints] at most the participant's
    [totalPoints] and [periodClaims] at most the [claimsCount], whatever the
    window. *)
Theorem periodRanking_within_totals
    (db : Db) (range : Date * Date) (row : PeriodRow) :
  consistent db -> pointsInRange db ->
  In row (periodRanking db range) ->
  periodPoints row <= totalPoints (r_user row) /\
  periodClaims row <= claimsCount (r_user row).
Proof.
  intros Hc Hr Hrow.
  apply periodRanking_In in Hrow as (Hin & _ & _ & Hp & Hn).
  unfold consistent in Hc. rewrite Forall_forall in Hc.
  destruct (Hc _ Hin) as [Htp Hcc].
  rewrite Hp, Hn, Htp, Hcc, windowClaims_filter.
  unfold ledgerPoints, ledgerCount.
  destruct (narrower_filter_le (validClaimOf (u_id (r_user row)))
              (fun c => inWindow range c && (userId c =? u_id (r_user row))%nat)
              (claims db)) as [H1 H2]; [|assumption|lia].
  intros c Hc'. apply andb_prop in Hc' as [Hw Hid].
  apply inWindow_spec in Hw as [Hv _]. unfold validClaimOf. now rewrite Hv, Hid.
Qed.

Lemma periodRanking_within_totals_witness :
  periodPoints (mkPeriodRow (mkUser 2 "Y" 3 1 true (clock - 500) 0) 3 1) <=
  totalPoints (mkUser 2 "Y" 3 1 true (clock - 500) 0).
Proof.
  apply (periodRanking_within_totals dbTwoToday (setHoursZero 0 clock, clock)
           (mkPeriodRow (mkUser 2 "Y" 3 1 true (clock - 500) 0) 3 1)).
  - repeat constructor.
  - repeat constructor; simpl; lia.
  - vm_compute. right. now left.
Defined.

(** X18: a row stands for at least one claim.  With the stored points within
    1 to 10, every row of a period ranking counts at least one claim, and its
    [periodPoints] lie between [periodClaims] and ten times [periodClaims]. *)
Theorem periodRanking_row_bounds
    (db : Db) (range : Date * Date) (row : PeriodRow) :
  pointsInRange db ->
  In row (periodRanking db range) ->
  1 <= periodClaims row /\
  periodClaims row <= periodPoints row <= 10 * periodClaims row.
Proof.
  intros Hr Hrow.
  apply periodRanking_In in Hrow as (_ & _ & (c & Hc & Hid & Hv & Hw) & Hp & Hn).
  assert (Hin : In c (windowClaims db range (u_id (r_user row)))).
  { apply windowClaims_In. auto. }
  assert (Hall : Forall (fun c => 1 <= points c <= 10)
                        (windowClaims db range (u_id (r_user row)))).
  { unfold pointsInRange in Hr. rewrite Forall_forall in *.
    intros d Hd. apply Hr. now apply windowClaims_In in Hd. }
  pose proof (sumPoints_bounds _ Hall) as Hb.
  rewrite Hp, Hn. split; [|assumption].
  destruct (windowClaims db range (u_id (r_user row))); [contradiction|].
  cbn [length]. lia.
Qed.

Lemma periodRanking_row_bounds_witness :
  1 <= periodClaims (mkPeriodRow (mkUser 2 "Y" 3 1 true (clock - 500) 0) 3 1).
Proof.
  apply (periodRanking_row_bounds dbTwoToday (setHoursZero 0 clock, clock)
           (mkPeriodRow (mkUser 2 "Y" 3 1 true (clock - 500) 0) 3 1)).
  - repeat constructor; simpl; lia.
  - vm_compute. right. now left.
Defined.

(** ** Statistics *)

Lemma sumZ_app (l1 l2 : list Z) : sumZ (l1 ++ l2) = sumZ l1 + sumZ l2.
Proof. unfold sumZ. induction l1 as [|a l1 IH]; simpl; lia. Qed.

Lemma sumZ_perm (l l' : list Z) : Permutation l l' -> sumZ l = sumZ l'.
Proof.
  unfold sumZ. induction 1; simpl; lia.
Qed.

Lemma sumZ_plus {K : Type} (a b : K -> Z) (ks : list K) :
  sumZ (map (fun k => a k + b k) ks) = sumZ (map a ks) + sumZ (map b ks).
Proof. unfold sumZ. induction ks as [|k ks IH]; simpl; lia. Qed.

Lemma sumZ_zero {K : Type} (a : K -> Z) (ks : list K) :
  (forall k, In k ks -> a k = 0) -> sumZ (map a ks) = 0.
Proof.
  unfold sumZ. induction ks as [|k ks IH]; simpl; intros H; [reflexivity|].
  rewrite (H k) by now left. rewrite IH; [reflexivity|]. intros j Hj. apply H. now right.
Qed.

(** Over distinct keys, a sum that is zero off one key is its value there. *)
Lemma sumZ_single (v : Z) (x : Z) (ks : list Z) :
  NoDup ks -> In x ks ->
  sumZ (map (fun p => if x =? p then v else 0) ks) = v.
Proof.
  induction 1 as [|k ks Hnotin Hnd IH]; simpl; [tauto|].
  intros [->|Hin].
  - rewrite Z.eqb_refl. change (v + sumZ (map (fun p => if x =? p then v else 0) ks) = v).
    rewrite sumZ_zero; [lia|].
    intros j Hj. destruct (Z.eqb_spec x j); [subst; contradiction|reflexivity].
  - destruct (Z.eqb_spec x k) as [E|E]; [subst; contradiction|].
    change (0 + sumZ (map (fun p => if x =? p then v else 0) ks) = v).
    rewrite IH by assumption. lia.
Qed.

Lemma bucket_sums (ks : list Z) (l : list Claim) :
  NoDup ks -> (forall c, In c l -> In (points c) ks) ->
  sumZ (map (fun p => Z.of_nat (length (filter (fun c => points c =? p) l))) ks) =
    Z.of_nat (length l) /\
  sumZ (map (fun p => p * Z.of_nat (length (filter (fun c => points c =? p) l))) ks) =
    sumPoints l.
Proof.
  intros Hnd. induction l as [|c l IH]; intros Hin.
  - split; apply sumZ_zero; intros; simpl; lia.
  - destruct IH as [IH1 IH2]; [intros d Hd; apply Hin; now right|].
    assert (Hc : In (points c) ks) by (apply Hin; now left).
    split.
    + rewrite (map_ext _ (fun p => (if points c =? p then 1 else 0) +
                 Z.of_nat (length (filter (fun c => points c =? p) l)))).
      * rewrite sumZ_plus, IH1, sumZ_single by assumption. cbn [length]. lia.
      * intros p. cbn [filter]. destruct (points c =? p); cbn [length]; lia.
    + rewrite (map_ext _ (fun p => (if points c =? p then points c else 0) +
                 p * Z.of_nat (length (filter (fun c => points c =? p) l)))).
      * rewrite sumZ_plus, IH2, sumZ_single by assumption.
        now rewrite sumPoints_cons.
      * intros p. cbn [filter]. destruct (Z.eqb_spec (points c) p);
          cbn [length]; lia.
Qed.

Lemma fold_min_max (x : Z) (l : list Z) :
  fold_right Z.min x l <= x <= fold_right Z.max x l.
Proof. induction l as [|a l IH]; simpl; lia. Qed.

Lemma strictly_sorted_buckets (l : list PointsBucket) :
  StronglySorted (fun a b => bucketPoints a <= bucketPoints b) l ->
  NoDup (map bucketPoints l) ->
  StronglySorted (fun a b => bucketPoints a < bucketPoints b) l.
Proof.
  induction 1 as [|a l Hs IH Hall]; simpl; intros Hnd; [constructor|].
  inversion Hnd as [|? ? Hnotin Hnd']; subst. constructor; [auto|].
  rewrite Forall_forall in *. intros b Hb. specialize (Hall b Hb).
  assert (bucketPoints a <> bucketPoints b); [|lia].
  intros E. apply Hnotin. rewrite E. now apply in_map.
Qed.

(** X19: the points distribution is a histogram of the summary.  In the
    reply of the claims summary route the counts of the distribution add up
    to [totalClaims], the points times the counts add up to [totalPoints],
    the buckets come in strictly ascending points, each with a count of at
    least 1; [totalClaims] is the number of valid claims, [minPoints] is at
    most [maxPoints], and without a valid claim the summary is all zeros and
    the distribution empty. *)
Theorem statsSummary_histogram (db : Db) :
  totalClaims (summary (statsSummary db)) =
    sumZ (map bucketCount (distribution (statsSummary db))) /\
  sm_totalPoints (summary (statsSummary db)) =
    sumZ (map (fun b => bucketPoints b * bucketCount b)
              (distribution (statsSummary db))) /\
  StronglySorted (fun a b => bucketPoints a < bucketPoints b)
                 (distribution (statsSummary db)) /\
  (forall b, In b (distribution (statsSummary db)) -> 1 <= bucketCount b) /\
  totalClaims (summary (statsSummary db)) =
    Z.of_nat (length (filter isValid (claims db))) /\
  sm_totalPoints (summary (statsSummary db)) =
    sumPoints (filter isValid (claims db)) /\
  minPoints (summary (statsSummary db)) <= maxPoints (summary (statsSummary db)) /\
  (filter isValid (claims db) = [] ->
   statsSummary db = mkSummaryBody (mkClaimSummary 0 0 0 0) []).
Proof.
  unfold statsSummary. cbn [summary distribution].
  set (valid := filter isValid (claims db)).
  set (raw := map (fun p => mkPointsBucket p
                     (Z.of_nat (length (filter (fun c => points c =? p) valid))))
                  (nodup Z.eq_dec (map points valid))).
  assert (Hperm : Permutation (pointsDistribution valid) raw) by apply sortDocs_perm.
  destruct (bucket_sums (nodup Z.eq_dec (map points valid)) valid) as [Hn Hp].
  { apply NoDup_nodup. }
  { intros c Hc. apply nodup_In. now apply in_map. }
  assert (Hcount : Z.of_nat (length valid) = sumZ (map bucketCount (pointsDistribution valid))).
  { rewrite (sumZ_perm _ _ (Permutation_map bucketCount Hperm)).
    unfold raw. rewrite map_map. simpl. now rewrite Hn. }
  assert (Hsum : sumPoints valid =
                 sumZ (map (fun b => bucketPoints b * bucketCount b)
                           (pointsDistribution valid))).
  { rewrite (sumZ_perm _ _ (Permutation_map _ Hperm)).
    unfold raw. rewrite map_map. simpl. now rewrite Hp. }
  assert (Htotal : totalClaims (match summarize valid with
                                | s :: _ => s | [] => mkClaimSummary 0 0 0 0 end) =
                   Z.of_nat (length valid)).
  { now destruct valid. }
  assert (Hpoints : sm_totalPoints (match summarize valid with
                                    | s :: _ => s | [] => mkClaimSummary 0 0 0 0 end) =
                    sumPoints valid).
  { now destruct valid. }
  split; [now rewrite Htotal|]. split; [now rewrite Hpoints|].
  split.
  { apply strictly_sorted_buckets.
    - apply sortDocs_sorted; intros; lia.
    - apply (Permutation_NoDup (Permutation_map bucketPoints (Permutation_sym Hperm))).
      unfold raw. rewrite map_map. simpl. rewrite map_id. apply NoDup_nodup. }
  split.
  { intros b Hb. apply (Permutation_in _ Hperm) in Hb. unfold raw in Hb.
    apply in_map_iff in Hb as (p & <- & Hp'). simpl.
    apply nodup_In, in_map_iff in Hp' as (c & Hc & Hin).
    assert (Hf : In c (filter (fun c0 => points c0 =? p) valid)).
    { apply filter_In. split; [assumption|]. lia. }
    destruct (filter (fun c0 => points c0 =? p) valid); [contradiction|].
    cbn [length]. lia. }
  split; [exact Htotal|]. split; [exact Hpoints|].
  split.
  { destruct valid as [|c l]; simpl; [lia|].
    pose proof (fold_min_max (points c) (map points l)). lia. }
  intros Hnone. now rewrite Hnone.
Qed.

Lemma ledger_cons (c : Claim) (l : list Claim) (uid : ObjectId) :
  ledgerPoints (c :: l) uid =
    (if validClaimOf uid c then points c else 0) + ledgerPoints l uid /\
  ledgerCount (c :: l) uid =
    (if validClaimOf uid c then 1 else 0) + ledgerCount l uid.
Proof.
  unfold ledgerPoints, ledgerCount. cbn [filter].
  destruct (validClaimOf uid c); rewrite ?sumPoints_cons; cbn [length]; lia.
Qed.

Lemma sumZ_owner (v : Z) (c : Claim) (us : list User) :
  NoDup (map u_id us) ->
  sumZ (map (fun u => if validClaimOf (u_id u) c then v else 0) us) =
  if isValid c && existsb (fun u => (u_id u =? userId c)%nat) us then v else 0.
Proof.
  unfold validClaimOf. destruct (isValid c); simpl;
    [|intros _; apply sumZ_zero; reflexivity].
  induction us as [|u us IH]; simpl; intros Hnd; [reflexivity|].
  inversion Hnd as [|? ? Hnotin Hnd']; subst.
  change (sumZ (?a :: ?t)) with (a + sumZ t).
  rewrite (Nat.eqb_sym (userId c)).
  destruct (Nat.eqb_spec (u_id u) (userId c)) as [E|E]; simpl.
  - rewrite sumZ_zero; [lia|].
    intros w Hw. destruct (Nat.eqb_spec (userId c) (u_id w)) as [E'|]; [|reflexivity].
    exfalso. apply Hnotin. rewrite E, E'. now apply in_map.
  - rewrite <- IH by assumption. apply Z.add_0_l.
Qed.

Lemma sum_ledger_owners (us : list User) (l : list Claim) :
  NoDup (map u_id us) ->
  sumZ (map (fun u => ledgerPoints l (u_id u)) us) =
    sumPoints (filter (fun c => isValid c &&
                                existsb (fun u => (u_id u =? userId c)%nat) us) l) /\
  sumZ (map (fun u => ledgerCount l (u_id u)) us) =
    Z.of_nat (length (filter (fun c => isValid c &&
                                existsb (fun u => (u_id u =? userId c)%nat) us) l)).
Proof.
  intros Hnd. induction l as [|c l [IH1 IH2]].
  - split; apply sumZ_zero; reflexivity.
  - split.
    + rewrite (map_ext _ (fun u => (if validClaimOf (u_id u) c then points c else 0) +
                                   ledgerPoints l (u_id u)))
        by (intros u; apply ledger_cons).
      rewrite sumZ_plus, IH1, sumZ_owner by assumption. cbn [filter].
      destruct (isValid c && _); rewrite ?sumPoints_cons; lia.
    + rewrite (map_ext _ (fun u => (if validClaimOf (u_id u) c then 1 else 0) +
                                   ledgerCount l (u_id u)))
        by (intros u; apply ledger_cons).
      rewrite sumZ_plus, IH2, sumZ_owner by assumption. cbn [filter].
      destruct (isValid c && _); cbn [length]; lia.
Qed.

Lemma active_ids_NoDup (us : list User) :
  NoDup (map u_id us) -> NoDup (map u_id (filter isActive us)).
Proof.
  induction us as [|u us IH]; simpl; intros Hnd; [constructor|].
  inversion Hnd as [|? ? Hfresh Hrest]; subst.
  destruct (isActive u); simpl; [|now apply IH].
  constructor; [|now apply IH].
  intros Hin. apply Hfresh. apply in_map_iff in Hin as (w & Hw & Hin).
  apply filter_In in Hin as [Hin _]. apply in_map_iff. now exists w.
Qed.

(** X20: the statistics of users and of claims agree.  With unique user
    ids, aggregates that agree with the ledger and every valid claim owned by
    an active stored user, the [totalPoints] over the active users, in the
    leaderboard statistics and in the users summary, is the
    [totalPointsClaimed] over the valid claims, and the [totalClaims] of the
    users summary is the [totalClaims] of the claim statistics. *)
Theorem stats_totals_agree (db : Db) :
  uniqueUsers db -> consistent db ->
  (forall c, In c (claims db) -> isValid c = true ->
     exists u, In u (users db) /\ u_id u = userId c /\ isActive u = true) ->
  us_totalPoints (userStats db) = totalPointsClaimed (claimStats db) /\
  su_totalPoints (usersSummary db) = totalPointsClaimed (claimStats db) /\
  su_totalClaims (usersSummary db) = cs_totalClaims (claimStats db).
Proof.
  intros Hnd Hc Hown.
  set (A := filter isActive (users db)).
  assert (HA : NoDup (map u_id A)) by now apply active_ids_NoDup.
  destruct (sum_ledger_owners A (claims db) HA) as [Hp Hn].
  assert (Hfilter : filter (fun c => isValid c &&
                              existsb (fun u => (u_id u =? userId c)%nat) A) (claims db) =
                    filter isValid (claims db)).
  { apply filter_ext_in. intros c Hin. destruct (isValid c) eqn:Hv; [|reflexivity].
    simpl. apply existsb_exists. destruct (Hown c Hin Hv) as (u & Hu & Hid & Ha).
    exists u. split; [apply filter_In; auto|now apply Nat.eqb_eq]. }
  rewrite Hfilter in Hp, Hn.
  unfold consistent in Hc. rewrite Forall_forall in Hc.
  assert (Htp : sumZ (map totalPoints A) = sumPoints (filter isValid (claims db))).
  { rewrite <- Hp. f_equal. apply map_ext_in. intros u Hu.
    apply filter_In in Hu as [Hu _]. now destruct (Hc u Hu). }
  assert (Hcc : sumZ (map claimsCount A) =
                Z.of_nat (length (filter isValid (claims db)))).
  { rewrite <- Hn. f_equal. apply map_ext_in. intros u Hu.
    apply filter_In in Hu as [Hu _]. now destruct (Hc u Hu). }
  assert (Hclaimed : totalPointsClaimed (claimStats db) =
                     sumPoints (filter isValid (claims db)) /\
                     cs_totalClaims (claimStats db) =
                     Z.of_nat (length (filter isValid (claims db)))).
  { unfold claimStats. now destruct (filter isValid (claims db)). }
  destruct Hclaimed as [-> ->]. rewrite <- Htp, <- Hcc.
  unfold userStats, usersSummary. fold A. now destruct A.
Qed.

Lemma stats_totals_agree_witness :
  us_totalPoints (userStats (run dbX threeClaims)) =
  totalPointsClaimed (claimStats (run dbX threeClaims)).
Proof.
  apply (stats_totals_agree (run dbX threeClaims)).
  - repeat constructor. simpl. tauto.
  - repeat constructor.
  - intros c Hc _. exists (mkUser 1 "X" 10 3 true 300 0).
    split; [now left|]. split; [|reflexivity].
    simpl in Hc. destruct Hc as [<-|[<-|[<-|[]]]]; reflexivity.
Defined.

(** ** Pages of the claims listing *)

Lemma ceilDiv_le_iff (a b k : Z) : 0 < b -> (ceilDiv a b <= k <-> a <= k * b).
Proof.
  intros Hb. unfold ceilDiv.
  pose proof (Z.div_mod (a + b - 1) b ltac:(lia)) as Hdm.
  pose proof (Z.mod_pos_bound (a + b - 1) b Hb) as Hm.
  split; intros H; nia.
Qed.

Lemma selected_length (db : Db) (q : ClaimsQuery) :
  Z.of_nat (length (selected db q)) = countDocuments (matchesQuery q) (claims db).
Proof.
  unfold selected, countDocuments.
  now rewrite (Permutation_length (sortDocs_perm _ _)).
Qed.


(** X21: the pagination of the claims listing is coherent.  Every claim of
    the page is a stored claim that the query selects; the page holds the
    claims left after the earlier pages, up to the limit; [hasNextPage] is
    true exactly when the page is before the last; the page is empty exactly
    when it is beyond the last; a page with a next page is full; and
    [totalPages] is the least number of pages of that limit that hold
    [totalClaims] claims. *)
Theorem listClaims_pagination (db : Db) (q : ClaimsQuery) :
  let page := listClaims db q in
  let pg := pagination page in
  let limit := Z.pos (match q_limit q with Some n => n | None => 20%positive end) in
  (forall c, In c (cp_claims page) -> In c (claims db) /\ matchesQuery q c = true) /\
  Z.of_nat (length (cp_claims page)) =
    Z.max 0 (Z.min limit (pg_totalClaims pg - (currentPage pg - 1) * limit)) /\
  (hasNextPage pg = true <-> currentPage pg < totalPages pg) /\
  (cp_claims page = [] <-> totalPages pg < currentPage pg) /\
  (hasNextPage pg = true -> Z.of_nat (length (cp_claims page)) = limit) /\
  (forall k, totalPages pg <= k <-> pg_totalClaims pg <= k * limit).
Proof.
  intros page pg limit.
  pose proof (selected_length db q) as Hlen.
  assert (Hsize : Z.of_nat (length (cp_claims page)) =
            Z.max 0 (Z.min limit (pg_totalClaims pg - (currentPage pg - 1) * limit))).
  { subst page pg. unfold listClaims, limitDocs, skipDocs.
    cbn [cp_claims pagination pg_totalClaims currentPage]. fold limit.
    rewrite length_firstn, length_skipn.
    assert (Hskip : 0 <= (Z.pos (match q_page q with
                                 | Some p => p | None => 1%positive end) - 1) * limit)
      by (apply Z.mul_nonneg_nonneg; [lia|discriminate]).
    lia. }
  assert (Hceil : forall k, totalPages pg <= k <-> pg_totalClaims pg <= k * limit).
  { intros k. apply ceilDiv_le_iff. reflexivity. }
  assert (Hnext : hasNextPage pg = true <-> currentPage pg < totalPages pg).
  { unfold pg, page, listClaims. cbn [pagination hasNextPage currentPage totalPages].
    fold limit. rewrite Z.ltb_lt.
    pose proof (ceilDiv_le_iff (countDocuments (matchesQuery q) (claims db)) limit
                  (Z.pos (match q_page q with Some p => p | None => 1%positive end))
                  ltac:(reflexivity)) as H.
    lia. }
  split.
  { intros c Hc. unfold page, listClaims in Hc. cbn [cp_claims] in Hc.
    apply limitDocs_In in Hc. unfold skipDocs in Hc.
    assert (Hsel : In c (selected db q)).
    { revert Hc. generalize (Z.to_nat
        ((Z.pos (match q_page q with Some p => p | None => 1%positive end) - 1) *
         Z.pos (match q_limit q with Some n => n | None => 20%positive end))).
      intros s Hc. rewrite <- (firstn_skipn s (selected db q)).
      apply in_or_app. now right. }
    now apply sortDocs_In, filter_In in Hsel. }
  split; [exact Hsize|]. split; [exact Hnext|].
  split.
  { rewrite <- length_zero_iff_nil.
    specialize (Hceil (currentPage pg - 1)).
    assert (0 < limit) by reflexivity. lia. }
  split; [|exact Hceil].
  intros Hn. apply Hnext in Hn.
  assert (Hlt : ~ totalPages pg <= currentPage pg) by lia.
  rewrite (Hceil (currentPage pg)) in Hlt. lia.
Qed.




(** ** The calendar of the windows *)

(** The day number is recovered from its year, month and day of the month,
    which are a month 0 to 11 and a day 1 to 31. *)
Lemma civilFromDay_inverse (d : Z) :
  dayOfMonthStart (fst (fst (civilFromDay d))) (snd (fst (civilFromDay d))) +
    snd (civilFromDay d) - 1 = d /\
  0 <= snd (fst (civilFromDay d)) <= 11 /\
  1 <= snd (civilFromDay d) <= 31.
Proof.
  unfold civilFromDay, dayOfMonthStart. cbn [fst snd].
  set (z := d + 719468). set (era := z / 146097). set (doe := z - era * 146097).
  assert (Hdoe : 0 <= doe < 146097) by (unfold doe, era; div_lia).
  set (yoe := (doe - doe / 1460 + doe / 36524 - doe / 146096) / 365).
  assert (Hyoe : 0 <= yoe <= 399 /\
                 0 <= doe - (365 * yoe + yoe / 4 - yoe / 100) <= 365)
    by (unfold yoe; div_lia).
  set (doy := doe - (365 * yoe + yoe / 4 - yoe / 100)) in *.
  set (mp := (5 * doy + 2) / 153).
  assert (Hmp : 0 <= mp <= 11) by (unfold mp; div_lia).
  assert (Hd : 1 <= doy - (153 * mp + 2) / 5 + 1 <= 31) by (unfold mp; div_lia).
  destruct (Z.ltb_spec mp 10) as [Hlt|Hge].
  - replace (mp + 2 <=? 1) with false by lia.
    replace (1 <? mp + 2) with true by lia.
    replace (mp + 2 - 2) with mp by lia.
    replace ((yoe + era * 400 + 0) / 400) with era by div_lia.
    replace (yoe + era * 400 + 0 - era * 400) with yoe by lia.
    split; [|lia]. unfold doy, doe, z. lia.
  - replace (mp - 10 <=? 1) with true by lia.
    replace (1 <? mp - 10) with false by lia.
    replace (mp - 10 + 10) with mp by lia.
    replace ((yoe + era * 400 + 1 - 1) / 400) with era by div_lia.
    replace (yoe + era * 400 + 1 - 1 - era * 400) with yoe by lia.
    split; [|lia]. unfold doy, doe, z. lia.
Qed.



Lemma MakeDay_in_year (y m dt : Z) :
  0 <= m <= 11 -> MakeDay y m dt = dayOfMonthStart y m + dt - 1.
Proof.
  intros Hm. unfold MakeDay.
  replace (m / 12) with 0 by div_lia. replace (m mod 12) with m by div_lia.
  now rewrite Z.add_0_r.
Qed.


Lemma time_of_day (t : Z) : Day t * msPerDay + TimeWithinDay t = t.
Proof. unfold Day, TimeWithinDay, msPerDay. div_lia. Qed.

Lemma setDate_shift (tza : Z) (t : Date) (k : Z) :
  setDate tza t (getDate tza t + k) = t + k * msPerDay.
Proof.
  unfold setDate, getDate, UTC, MakeDate, LocalTime,
    YearFromTime, MonthFromTime, DateFromTime.
  destruct (civilFromDay_inverse (Day (t + tza))) as (Hinv & Hm & _).
  rewrite MakeDay_in_year by assumption.
  pose proof (time_of_day (t + tza)). lia.
Qed.



Lemma week_window (tza : Z) (now start : Date) :
  getDateRange tza now start "week" =
  Some (setDate tza start (getDate tza now - 7), now).
Proof. reflexivity. Qed.



Lemma week_window_start (tza : Z) (now start : Date) :
  getDateRange tza now start "week" =
  Some (start + (getDate tza now - getDate tza start - 7) * msPerDay, now).
Proof.
  rewrite week_window.
  replace (getDate tza now - 7)
    with (getDate tza start + (getDate tza now - getDate tza start - 7)) by lia.
  now rewrite setDate_shift.
Qed.

Lemma week_window_same_day (tza : Z) (now start : Date) :
  getDate tza now = getDate tza start ->
  getDateRange tza now start "week" = Some (start - 7 * msPerDay, now).
Proof.
  intros Hsame. rewrite week_window_start.
  replace (start + (getDate tza now - getDate tza start - 7) * msPerDay)
    with (start - 7 * msPerDay) by (rewrite Hsame; lia).
  reflexivity.
Qed.

(** X23: the week window is seven days long.  Whatever the zone offset, the
    window of [week] starts at the second clock reading moved by the
    difference of the two readings' days of the month minus 7 days, across
    month and year ends alike; when both readings fall on the same day of the
    month it starts exactly 7 days before the second reading.  It ends at the
    first reading. *)
Theorem getDateRange_week (tza : Z) (now start : Date) :
  getDateRange tza now start "week" =
    Some (start + (getDate tza now - getDate tza start - 7) * msPerDay, now) /\
  (getDate tza now = getDate tza start ->
   getDateRange tza now start "week" = Some (start - 7 * msPerDay, now)).
Proof.
  split; [apply week_window_start|]. intros Hsame. now apply week_window_same_day.
Qed.

Lemma getDateRange_week_witness :
  getDateRange 0 clock clock "week" = Some (clock - 7 * msPerDay, clock).
Proof.
  destruct (getDateRange_week 0 clock clock) as [_ H]. apply H. reflexivity.
Defined.






(** ** Wider windows *)

(** X26: a wider window keeps everyone and takes no points away.  With the
    stored points within 1 to 10, when a window contains another, every
    participant with a row in the ranking of the inner window has a row in
    the ranking of the outer one, with at least as many period points and
    period claims. *)
Theorem periodRanking_window_mono
    (db : Db) (inner outer : Date * Date) (row : PeriodRow) :
  pointsInRange db ->
  fst outer <= fst inner -> snd inner <= snd outer ->
  In row (periodRanking db inner) ->
  exists row',
    In row' (periodRanking db outer) /\
    r_user row' = r_user row /\
    periodPoints row <= periodPoints row' /\
    periodClaims row <= periodClaims row'.
Proof.
  intros Hr Hlo Hhi Hrow.
  apply periodRanking_In in Hrow as (Hin & Ha & (c & Hc & Hid & Hv & Hw) & Hp & Hn).
  exists (mkPeriodRow (r_user row)
            (sumPoints (windowClaims db outer (u_id (r_user row))))
            (Z.of_nat (length (windowClaims db outer (u_id (r_user row)))))).
  split.
  { apply periodRanking_In. unfold windowRow. cbn [r_user periodPoints periodClaims].
    split; [assumption|]. split; [assumption|]. split; [|auto].
    exists c. repeat split; auto; lia. }
  split; [reflexivity|]. cbn [periodPoints periodClaims].
  rewrite Hp, Hn, !windowClaims_filter.
  destruct (narrower_filter_le
              (fun c => inWindow outer c && (userId c =? u_id (r_user row))%nat)
              (fun c => inWindow inner c && (userId c =? u_id (r_user row))%nat)
              (claims db)) as [H1 H2]; [|assumption|lia].
  intros d Hd. apply andb_prop in Hd as [Hd1 Hd2]. rewrite Hd2, andb_true_r.
  apply inWindow_spec in Hd1 as [Hv' Hw']. apply inWindow_spec. split; [assumption|lia].
Qed.

Lemma periodRanking_window_mono_witness :
  exists row',
    In row' (periodRanking dbTwoToday (clock - 7 * msPerDay, clock)) /\
    r_user row' = mkUser 2 "Y" 3 1 true (clock - 500) 0.
Proof.
  destruct (periodRanking_window_mono dbTwoToday (setHoursZero 0 clock, clock)
              (clock - 7 * msPerDay, clock)
              (mkPeriodRow (mkUser 2 "Y" 3 1 true (clock - 500) 0) 3 1))
    as (row' & H1 & H2 & _).
  - repeat constructor; simpl; lia.
  - vm_compute. discriminate.
  - simpl. lia.
  - vm_compute. right. now left.
  - exists row'. split; [exact H1|exact H2].
Defined.

(** ** Badges *)

(** X27: the badge of a place.  The badge of a rank is gold, silver and
    bronze for 1, 2 and 3, top 10 for 4 to 10, and also for a rank of 0 or
    below, top 50 for 11 to 50, and ranked beyond; so the entry at place i
    (from 0) of every global leaderboard carries the badge of rank i + 1, and
    the default leaderboard of 10 shows no top 50 and no ranked badge. *)
Theorem getRankBadge_tiers (rank : Z) :
  (getRankBadge rank = Gold <-> rank = 1) /\
  (getRankBadge rank = Silver <-> rank = 2) /\
  (getRankBadge rank = Bronze <-> rank = 3) /\
  (getRankBadge rank = Top10 <-> rank <= 0 \/ 4 <= rank <= 10) /\
  (getRankBadge rank = Top50 <-> 11 <= rank <= 50) /\
  (getRankBadge rank = Ranked <-> 50 < rank) /\
  (forall db limit i e,
     nth_error (leaderboard db limit) i = Some e ->
     ru_rank e = Z.of_nat i + 1 /\ ru_badge e = getRankBadge (Z.of_nat i + 1)) /\
  (forall db e, In e (leaderboard db None) ->
     ru_badge e <> Top50 /\ ru_badge e <> Ranked).
Proof.
  assert (Htiers :
    forall r,
      (getRankBadge r = Gold <-> r = 1) /\
      (getRankBadge r = Silver <-> r = 2) /\
      (getRankBadge r = Bronze <-> r = 3) /\
      (getRankBadge r = Top10 <-> r <= 0 \/ 4 <= r <= 10) /\
      (getRankBadge r = Top50 <-> 11 <= r <= 50) /\
      (getRankBadge r = Ranked <-> 50 < r)).
  { intros r. unfold getRankBadge.
    destruct (Z.eqb_spec r 1); [repeat split; intros; (congruence || lia)|].
    destruct (Z.eqb_spec r 2); [repeat split; intros; (congruence || lia)|].
    destruct (Z.eqb_spec r 3); [repeat split; intros; (congruence || lia)|].
    destruct (Z.leb_spec r 10); [repeat split; intros; (congruence || lia)|].
    destruct (Z.leb_spec r 50); repeat split; intros; (congruence || lia). }
  assert (Hnth : forall db limit i e,
     nth_error (leaderboard db limit) i = Some e ->
     ru_rank e = Z.of_nat i + 1 /\ ru_badge e = getRankBadge (Z.of_nat i + 1) /\
     (i < Pos.to_nat (match limit with Some n => n | None => 10%positive end))%nat).
  { intros db limit i e He.
    assert (Hsome : leaderboard db limit =
                    leaderboard db (Some (match limit with
                                          | Some n => n | None => 10%positive end)))
      by now destruct limit.
    rewrite Hsome, leaderboard_nth in He.
    destruct (Nat.ltb_spec i (Pos.to_nat (match limit with
                                          | Some n => n | None => 10%positive end)));
      [|discriminate].
    destruct (nth_error (activeRanking db) i); [|discriminate].
    injection He as <-. auto. }
  destruct (Htiers rank) as (H1 & H2 & H3 & H4 & H5 & H6).
  repeat (split; [assumption|]).
  split.
  - intros db limit i e He. destruct (Hnth db limit i e He) as (Hr & Hb & _). auto.
  - intros db e He. apply In_nth_error in He as [i Hi].
    destruct (Hnth db None i e Hi) as (Hr & Hb & Hlt).
    destruct (Htiers (Z.of_nat i + 1)) as (_ & _ & _ & _ & H50 & Hrk).
    rewrite Hb. split; intros E; [apply H50 in E|apply Hrk in E];
      change (Pos.to_nat 10) with 10%nat in Hlt; lia.
Qed.

(** ** Today's statistics *)

(** X28: today is part of the total.  The statistics of today count the
    valid claims created at or after the local midnight before the clock
    reading and sum their points; with stored points within 1 to 10, they
    never exceed the [totalClaims] and [totalPoints] of the claims summary;
    and they are zeros when no valid claim was created since that midnight. *)
Theorem statsToday_within_summary (tza : Z) (now : Date) (db : Db) :
  pointsInRange db ->
  let today := filter (fun c => (setHoursZero tza now <=? c_createdAt c) && isValid c)
                      (claims db) in
  statsToday tza now db = mkTodayStats (sumPoints today) (Z.of_nat (length today)) /\
  td_totalClaims (statsToday tza now db) <= totalClaims (summary (statsSummary db)) /\
  td_totalPoints (statsToday tza now db) <= sm_totalPoints (summary (statsSummary db)) /\
  (today = [] -> statsToday tza now db = mkTodayStats 0 0).
Proof.
  intros Hr today.
  assert (Heq : statsToday tza now db =
                mkTodayStats (sumPoints today) (Z.of_nat (length today))).
  { unfold statsToday, getTodayStats. fold today. now destruct today. }
  assert (Hsum : totalClaims (summary (statsSummary db)) =
                 Z.of_nat (length (filter isValid (claims db))) /\
                 sm_totalPoints (summary (statsSummary db)) =
                 sumPoints (filter isValid (claims db))).
  { unfold statsSummary. cbn [summary]. now destruct (filter isValid (claims db)). }
  destruct Hsum as [Hn Hp].
  destruct (narrower_filter_le isValid
              (fun c => (setHoursZero tza now <=? c_createdAt c) && isValid c)
              (claims db)) as [H1 H2]; [|assumption|].
  { intros c Hc. now apply andb_prop in Hc. }
  fold today in H1, H2.
  split; [exact Heq|]. rewrite Heq, Hn, Hp. cbn [td_totalClaims td_totalPoints].
  split; [lia|]. split; [lia|]. intros Hnone. now rewrite Hnone.
Qed.

Lemma statsToday_within_summary_witness :
  td_totalClaims (statsToday 0 clock dbEightDays) <=
  totalClaims (summary (statsSummary dbEightDays)).
Proof.
  destruct (statsToday_within_summary 0 clock dbEightDays) as (_ & H & _).
  - repeat constructor; simpl; lia.
  - exact H.
Defined.

(** ** The method that adds points *)


